(** * Pomice: node pool, track resolution and filter payloads

    A shallow embedding of [pomice/pool.py] and [pomice/filters.py].

    Conventions of the embedding.
    - A Python [dict] is the list of its [items()] in insertion order
      (keys pairwise distinct); lookups take the first binding, assignment
      overwrites in place or appends, [del] raises [KeyError] on a missing key.
    - A Python exception is a constructor of [exn]; a call that may raise
      returns a [result].
    - Numbers (Python [int] and finite [float] values) are exact rationals;
      only their order and equality are used by the code.
    - Objects live in a store ([World.heap]) and are referred to by address,
      so that the registry and a caller can hold the same node.
    - What the code delegates to collaborators that are not part of these
      files (the socket, the REST session, the Spotify client, the players,
      the builtins [str] and [int], [urllib.parse.quote]) is either a
      parameter ([Pool.Env], the outcome of [ws_connect]) or an entry in the
      effect log. *)

From Stdlib Require Import Bool Ascii String List ZArith QArith Lia.
From Stdlib Require Import Permutation Sorted Lqa.
Import ListNotations.

Local Close Scope Q_scope.
Local Open Scope string_scope.
Local Open Scope list_scope.
Set Warnings "-register-all".

(* ================================================================== *)
(** ** Python values, exceptions and dictionaries *)
(* ================================================================== *)

Module Py.

(** The exception classes the two files raise or let escape.  The first
    seven come from [pomice/exceptions.py]; the others are builtins. *)
Inductive exn : Type :=
| NoNodesAvailable (msg : string)
| NodeCreationError (msg : string)
| NodeConnectionFailure (msg : string)
| NodeNotAvailable (msg : string)
| TrackLoadError (msg : string)
| InvalidSpotifyClientAuthorization (msg : string)
| FilterInvalidArgument (msg : string)
| ValueError (msg : string)
| KeyError
| IndexError
| TypeError
| AttributeError
| ExternalError (tag : string).

Inductive result (A : Type) : Type :=
| Ok (a : A)
| Raise (e : exn).
Arguments Ok {A} a.
Arguments Raise {A} e.

Definition bind {A B : Type} (m : result A) (k : A -> result B) : result B :=
  match m with
  | Ok a => k a
  | Raise e => Raise e
  end.

Declare Scope py_scope.
Delimit Scope py_scope with py.
Notation "x <- m ;; k" := (bind m (fun x => k))
  (at level 61, m at next level, right associativity) : py_scope.

(** Decoded JSON, which is also the shape of the payload dictionaries. *)
Inductive json : Type :=
| JNull
| JBool (b : bool)
| JNum (q : Q)
| JStr (s : string)
| JArr (l : list json)
| JObj (fields : list (string * json)).

(** Python truthiness ([bool(v)]) of a decoded JSON value. *)
Definition truthy (v : json) : bool :=
  match v with
  | JNull => false
  | JBool b => b
  | JNum q => negb (Qeq_bool q 0)
  | JStr s => negb (String.eqb s EmptyString)
  | JArr l => match l with [] => false | _ => true end
  | JObj d => match d with [] => false | _ => true end
  end.

(** [v == "literal"]: a string compares equal only to the same string. *)
Definition eq_str (v : json) (s : string) : bool :=
  match v with
  | JStr t => String.eqb t s
  | _ => false
  end.

(** Truthiness of an [Optional[str]] / [Optional[bool]] attribute. *)
Definition truthy_str (o : option string) : bool :=
  match o with
  | Some s => negb (String.eqb s EmptyString)
  | None => false
  end.

Definition truthy_flag (o : option bool) : bool :=
  match o with
  | Some b => b
  | None => false
  end.

(** *** Dictionaries *)

Section Dict.
Context {K V : Type} (keq : K -> K -> bool).

Definition dict : Type := list (K * V).

Fixpoint dict_get (d : dict) (k : K) : option V :=
  match d with
  | [] => None
  | (k', v) :: t => if keq k' k then Some v else dict_get t k
  end.

Definition dict_contains (d : dict) (k : K) : bool :=
  match dict_get d k with Some _ => true | None => false end.

(** [d[k] = v] *)
Fixpoint dict_set (d : dict) (k : K) (v : V) : dict :=
  match d with
  | [] => [(k, v)]
  | (k', v') :: t =>
      if keq k' k then (k', v) :: t else (k', v') :: dict_set t k v
  end.

(** [del d[k]]; [None] stands for the [KeyError]. *)
Fixpoint dict_del (d : dict) (k : K) : option dict :=
  match d with
  | [] => None
  | (k', v) :: t =>
      if keq k' k then Some t
      else match dict_del t k with
           | Some t' => Some ((k', v) :: t')
           | None => None
           end
  end.

Definition dict_values (d : dict) : list V := map snd d.
Definition dict_keys (d : dict) : list K := map fst d.
End Dict.

Arguments dict K V : clear implicits.

Definition sget {V} (d : dict string V) (k : string) : option V :=
  dict_get String.eqb d k.
Definition zget {V} (d : dict Z V) (k : Z) : option V :=
  dict_get Z.eqb d k.

(** [d.get(k)] / [d.get(k, None)] on a decoded object. *)
Definition get_or_null (d : dict string json) (k : string) : json :=
  match sget d k with
  | Some v => v
  | None => JNull
  end.

(** [v[k]] with a string key. *)
Definition subscript (v : json) (k : string) : result json :=
  match v with
  | JObj d => match sget d k with
              | Some x => Ok x
              | None => Raise KeyError
              end
  | _ => Raise TypeError
  end.

(** [v[0]] *)
Definition index0 (v : json) : result json :=
  match v with
  | JArr [] => Raise IndexError
  | JArr (x :: _) => Ok x
  | JStr EmptyString => Raise IndexError
  | JStr (String c _) => Ok (JStr (String c EmptyString))
  | JObj _ => Raise KeyError
  | _ => Raise TypeError
  end.

(** [v.get(k)]: only dictionaries have the method. *)
Definition method_get (v : json) (k : string) : result json :=
  match v with
  | JObj d => Ok (get_or_null d k)
  | _ => Raise AttributeError
  end.

(** *** [sorted(xs, key=...)]

    Python's [sorted] is a stable sort; the result of a stable sort is
    determined by its input, so any stable sort computes it.  Insertion
    from the right is one. *)
Section Sorted.
Context {A : Type} (key : A -> nat).

Fixpoint insert_by (x : A) (l : list A) : list A :=
  match l with
  | [] => [x]
  | y :: t =>
      if Nat.leb (key x) (key y) then x :: y :: t else y :: insert_by x t
  end.

Definition sorted (l : list A) : list A := fold_right insert_by [] l.
End Sorted.

End Py.

Import Py.
Local Open Scope py_scope.

(* ================================================================== *)
(** ** filters.py *)
(* ================================================================== *)

Module Filters.

(** [x < y] on numbers. *)
Definition lt (x y : Q) : bool := negb (Qle_bool y x).

(** A keyword argument with a default. *)
Definition kw (default : Q) (arg : option Q) : Q :=
  match arg with
  | Some v => v
  | None => default
  end.

Record Timescale_obj : Type := {
  ts_speed : Q; ts_pitch : Q; ts_rate : Q;
  ts_payload : json
}.

(** [Timescale.__init__] *)
Definition Timescale (speed pitch rate : option Q) : result Timescale_obj :=
  let speed := kw 1 speed in
  let pitch := kw 1 pitch in
  let rate := kw 1 rate in
  if lt speed 0 then
    Raise (FilterInvalidArgument "Timescale speed must be more than 0.")
  else if lt pitch 0 then
    Raise (FilterInvalidArgument "Timescale pitch must be more than 0.")
  else if lt rate 0 then
    Raise (FilterInvalidArgument "Timescale rate must be more than 0.")
  else
    Ok {| ts_speed := speed; ts_pitch := pitch; ts_rate := rate;
          ts_payload :=
            JObj [("timescale",
                   JObj [("speed", JNum speed);
                         ("pitch", JNum pitch);
                         ("rate", JNum rate)])] |}.

Record Osc_obj : Type := {
  osc_frequency : Q; osc_depth : Q;
  osc_payload : json
}.

(** [Tremolo.__init__] *)
Definition Tremolo (frequency depth : option Q) : result Osc_obj :=
  let frequency := kw 2 frequency in
  let depth := kw (1 # 2) depth in
  if lt frequency 0 then
    Raise (FilterInvalidArgument "Tremolo frequency must be more than 0.")
  else if lt depth 0 || lt 1 depth then
    Raise (FilterInvalidArgument "Tremolo depth must be between 0 and 1.")
  else
    Ok {| osc_frequency := frequency; osc_depth := depth;
          osc_payload :=
            JObj [("tremolo",
                   JObj [("frequency", JNum frequency);
                         ("depth", JNum depth)])] |}.

(** [Vibrato.__init__] *)
Definition Vibrato (frequency depth : option Q) : result Osc_obj :=
  let frequency := kw 2 frequency in
  let depth := kw (1 # 2) depth in
  if lt frequency 0 || lt 14 frequency then
    Raise (FilterInvalidArgument "Vibrato frequency must be between 0 and 14.")
  else if lt depth 0 || lt 1 depth then
    Raise (FilterInvalidArgument "Vibrato depth must be between 0 and 1.")
  else
    Ok {| osc_frequency := frequency; osc_depth := depth;
          osc_payload :=
            JObj [("vibrato",
                   JObj [("frequency", JNum frequency);
                         ("depth", JNum depth)])] |}.

Record ChannelMix_obj : Type := {
  left_to_left : Q; left_to_right : Q;
  right_to_left : Q; right_to_right : Q;
  cm_payload : json
}.

(** The guard [0 > x > 1] is Python's chained comparison
    [0 > x and x > 1]. *)
Definition chained_gt_0_gt_1 (x : Q) : bool := lt x 0 && lt 1 x.

(** [ChannelMix.__init__]; the keyword arguments in the order of the
    signature. *)
Definition ChannelMix (ll rr lr rl : option Q) : result ChannelMix_obj :=
  let ll := kw 1 ll in
  let rr := kw 1 rr in
  let lr := kw 0 lr in
  let rl := kw 0 rl in
  if chained_gt_0_gt_1 ll then
    Raise (ValueError "'left_to_left' value must be more than or equal to 0 or less than or equal to 1.")
  else if chained_gt_0_gt_1 rr then
    Raise (ValueError "'right_to_right' value must be more than or equal to 0 or less than or equal to 1.")
  else if chained_gt_0_gt_1 lr then
    Raise (ValueError "'left_to_right' value must be more than or equal to 0 or less than or equal to 1.")
  else if chained_gt_0_gt_1 rl then
    Raise (ValueError "'right_to_left' value must be more than or equal to 0 or less than or equal to 1.")
  else
    Ok {| left_to_left := ll; left_to_right := lr;
          right_to_left := rl; right_to_right := rr;
          cm_payload :=
            JObj [("channelMix",
                   JObj [("leftToLeft", JNum ll);
                         ("leftToRight", JNum lr);
                         ("rightToLeft", JNum rl);
                         ("rightToRight", JNum rr)])] |}.

End Filters.

(* ================================================================== *)
(** ** The three compiled patterns of pool.py *)
(* ================================================================== *)

Module Regex.

(** Matchers return the text left after the match ([None]: no match).
    Alternatives are tried in the order Python's backtracking tries them. *)

(** A literal. *)
Fixpoint lit (p s : string) : option string :=
  match p with
  | EmptyString => Some s
  | String a p' =>
      match s with
      | String b s' => if Ascii.eqb a b then lit p' s' else None
      | EmptyString => None
      end
  end.

(** An unescaped [.]: any character but the newline. *)
Definition dot (s : string) : option string :=
  match s with
  | String c t => if Ascii.eqb c "010"%char then None else Some t
  | EmptyString => None
  end.

Definition obind {A B : Type} (o : option A) (k : A -> option B) : option B :=
  match o with
  | Some a => k a
  | None => None
  end.

Definition orelse {A : Type} (o1 o2 : option A) : option A :=
  match o1 with
  | Some a => Some a
  | None => o2
  end.

Definition in_range (lo hi c : ascii) : bool :=
  N.leb (N_of_ascii lo) (N_of_ascii c) && N.leb (N_of_ascii c) (N_of_ascii hi).

(** [[0-9]], [[a-zA-Z0-9]] and [[a-zA-Z0-9_.]] *)
Definition is_digit (c : ascii) : bool := in_range "0" "9" c.
Definition is_alnum (c : ascii) : bool :=
  in_range "a" "z" c || in_range "A" "Z" c || is_digit c.
Definition is_file_char (c : ascii) : bool :=
  is_alnum c || Ascii.eqb c "_" || Ascii.eqb c ".".

(** The longest prefix made of characters of a class, and the rest. *)
Fixpoint span (cls : ascii -> bool) (s : string) : string * string :=
  match s with
  | String c t =>
      if cls c then let '(a, r) := span cls t in (String c a, r)
      else (EmptyString, s)
  | EmptyString => (EmptyString, EmptyString)
  end.

(** [[class]+], greedy.  In the three patterns a class is followed by a
    literal outside the class or by the end of the pattern, so giving back
    characters never turns a failure into a match. *)
Definition plus (cls : ascii -> bool) (s : string) : option (string * string) :=
  match span cls s with
  | (EmptyString, _) => None
  | (a, r) => Some (a, r)
  end.

(** [https?://] *)
Definition https (s : string) : option string :=
  obind (lit "http" s) (fun r =>
    orelse (obind (lit "s" r) (lit "://")) (lit "://" r)).

(** [URL_REGEX] = [https?://(?:www\.)?.+] at the start of [s]. *)
Definition URL_REGEX_at (s : string) : bool :=
  match https s with
  | Some r =>
      match orelse (obind (lit "www." r) dot) (dot r) with
      | Some _ => true
      | None => false
      end
  | None => false
  end.

(** [URL_REGEX.search(s)]: a match starting anywhere. *)
Fixpoint URL_REGEX_search (s : string) : bool :=
  URL_REGEX_at s ||
  match s with
  | String _ t => URL_REGEX_search t
  | EmptyString => false
  end.

(** [/(?P<id>[a-zA-Z0-9]+)] after the type of a Spotify URL. *)
Definition spotify_id (ty : string) (r : string) : option (string * string) :=
  obind (lit "/" r) (fun r =>
  obind (plus is_alnum r) (fun '(id, _) => Some (ty, id))).

(** [SPOTIFY_URL_REGEX.match(s)]: the groups [type] and [id]. *)
Definition SPOTIFY_URL_REGEX_match (s : string) : option (string * string) :=
  obind (https s) (fun r =>
  obind (lit "open" r) (fun r =>
  obind (dot r) (fun r =>
  obind (lit "spotify" r) (fun r =>
  obind (dot r) (fun r =>
  obind (lit "com/" r) (fun r =>
    orelse (obind (lit "album" r) (spotify_id "album"))
   (orelse (obind (lit "artist" r) (spotify_id "artist"))
   (orelse (obind (lit "playlist" r) (spotify_id "playlist"))
           (obind (lit "track" r) (spotify_id "track")))))))))).

Record discord_groups : Type := {
  channel_id : string;
  message_id : string;
  file : string
}.

(** [DISCORD_MP3_URL_REGEX.match(s)].  The last group is repeated, but its
    first round takes the whole run of file characters and no second round
    can start, so the group holds that run. *)
Definition DISCORD_MP3_URL_REGEX_match (s : string) : option discord_groups :=
  obind (https s) (fun r =>
  obind (lit "cdn" r) (fun r =>
  obind (dot r) (fun r =>
  obind (lit "discordapp" r) (fun r =>
  obind (dot r) (fun r =>
  obind (lit "com/attachments/" r) (fun r =>
  obind (plus is_digit r) (fun '(ch, r) =>
  obind (lit "/" r) (fun r =>
  obind (plus is_digit r) (fun '(msg, r) =>
  obind (lit "/" r) (fun r =>
  obind (plus is_file_char r) (fun '(f, _) =>
    Some {| channel_id := ch; message_id := msg; file := f |}))))))))))).

End Regex.

(* ================================================================== *)
(** ** pool.py *)
(* ================================================================== *)

Module Pool.

Import Regex.

(** Objects are referred to by address; players and the request context
    belong to collaborators and are opaque here. *)
Definition addr : Type := nat.
Definition Player : Type := nat.
Definition Ctx : Type := option nat.

(** What [Node._pool] holds.  [NodePool.create_node] is a classmethod and
    passes [cls], the class; a caller building a [Node] by hand may pass an
    instance. *)
Inductive pool_ref : Type :=
| PoolClass
| PoolInstance.

Record websocket : Type := { closed : bool }.
Record task : Type := { cancelled : bool }.
Record SpotifyClient : Type := { client_id : string; client_secret : string }.

(** The attributes of a [Node].  An attribute of type [option] that
    [__init__] does not assign ([_spotify_client], [_stats], [available])
    is [None] until some method assigns it, and reading it before that is
    an [AttributeError]; [_websocket], [_task] and [_available] start as
    Python's [None].  The session, the bot handle and the request headers
    are handles of collaborators and are left out. *)
Record Node : Type := {
  _host : string;
  _port : string;
  _pool : pool_ref;
  _password : string;
  _identifier : string;
  _secure : bool;
  _websocket_uri : string;
  _rest_uri : string;
  _websocket : option websocket;
  _task : option task;
  _available : option bool;
  _players : dict Z Player;
  _spotify_client_id : option string;
  _spotify_client_secret : option string;
  _spotify_client : option SpotifyClient;
  _stats : option (dict string json);
  available : option bool
}.

Definition set_websocket (v : option websocket) (n : Node) : Node :=
  {| _host := _host n; _port := _port n; _pool := _pool n;
     _password := _password n; _identifier := _identifier n;
     _secure := _secure n; _websocket_uri := _websocket_uri n;
     _rest_uri := _rest_uri n; _websocket := v; _task := _task n;
     _available := _available n; _players := _players n;
     _spotify_client_id := _spotify_client_id n;
     _spotify_client_secret := _spotify_client_secret n;
     _spotify_client := _spotify_client n; _stats := _stats n;
     available := available n |}.

Definition set_task (v : option task) (n : Node) : Node :=
  {| _host := _host n; _port := _port n; _pool := _pool n;
     _password := _password n; _identifier := _identifier n;
     _secure := _secure n; _websocket_uri := _websocket_uri n;
     _rest_uri := _rest_uri n; _websocket := _websocket n; _task := v;
     _available := _available n; _players := _players n;
     _spotify_client_id := _spotify_client_id n;
     _spotify_client_secret := _spotify_client_secret n;
     _spotify_client := _spotify_client n; _stats := _stats n;
     available := available n |}.

Definition set__available (v : option bool) (n : Node) : Node :=
  {| _host := _host n; _port := _port n; _pool := _pool n;
     _password := _password n; _identifier := _identifier n;
     _secure := _secure n; _websocket_uri := _websocket_uri n;
     _rest_uri := _rest_uri n; _websocket := _websocket n; _task := _task n;
     _available := v; _players := _players n;
     _spotify_client_id := _spotify_client_id n;
     _spotify_client_secret := _spotify_client_secret n;
     _spotify_client := _spotify_client n; _stats := _stats n;
     available := available n |}.

Definition set_stats (v : option (dict string json)) (n : Node) : Node :=
  {| _host := _host n; _port := _port n; _pool := _pool n;
     _password := _password n; _identifier := _identifier n;
     _secure := _secure n; _websocket_uri := _websocket_uri n;
     _rest_uri := _rest_uri n; _websocket := _websocket n; _task := _task n;
     _available := _available n; _players := _players n;
     _spotify_client_id := _spotify_client_id n;
     _spotify_client_secret := _spotify_client_secret n;
     _spotify_client := _spotify_client n; _stats := v;
     available := available n |}.

Definition set_available (v : option bool) (n : Node) : Node :=
  {| _host := _host n; _port := _port n; _pool := _pool n;
     _password := _password n; _identifier := _identifier n;
     _secure := _secure n; _websocket_uri := _websocket_uri n;
     _rest_uri := _rest_uri n; _websocket := _websocket n; _task := _task n;
     _available := _available n; _players := _players n;
     _spotify_client_id := _spotify_client_id n;
     _spotify_client_secret := _spotify_client_secret n;
     _spotify_client := _spotify_client n; _stats := _stats n;
     available := v |}.

(** Calls into collaborators, in the order they are made. *)
Inductive event : Type :=
| EvAddListener (node : addr)
| EvWsConnect (node : addr) (uri : string)
| EvCreateTask (node : addr)
| EvSend (node : addr) (msg : json)
| EvDestroy (p : Player)
| EvWsClose (node : addr)
| EvTaskCancel (node : addr)
| EvDispatchEvent (p : Player) (data : dict string json)
| EvUpdateState (p : Player) (data : dict string json).

(** The process: the class attribute [NodePool._nodes], the node objects,
    the next free address and the effect log. *)
Record World : Type := {
  _nodes : dict string addr;
  heap : addr -> Node;
  next : addr;
  log : list event
}.

Definition set_nodes (d : dict string addr) (w : World) : World :=
  {| _nodes := d; heap := heap w; next := next w; log := log w |}.

Definition emit (e : event) (w : World) : World :=
  {| _nodes := _nodes w; heap := heap w; next := next w;
     log := log w ++ [e] |}.

Definition update (a : addr) (f : Node -> Node) (w : World) : World :=
  {| _nodes := _nodes w;
     heap := fun b => if Nat.eqb b a then f (heap w a) else heap w b;
     next := next w; log := log w |}.

(** A method with effects: the world after the call is returned also when
    the call raises, as mutations made before a [raise] persist. *)
Definition M (A : Type) : Type := World -> result A * World.

(** *** Node *)

(** [Node.__init__]: the new object's attributes. *)
Definition Node_init (pool : pool_ref) (host port password identifier : string)
    (secure : bool) (spotify_client_id spotify_client_secret : option string)
  : Node :=
  {| _host := host; _port := port; _pool := pool; _password := password;
     _identifier := identifier; _secure := secure;
     _websocket_uri :=
       ((if secure then "wss" else "ws") ++ "://" ++ host ++ ":" ++ port)%string;
     _rest_uri :=
       ((if secure then "https" else "http") ++ "://" ++ host ++ ":" ++ port)%string;
     _websocket := None; _task := None; _available := None;
     _players := [];
     _spotify_client_id := spotify_client_id;
     _spotify_client_secret := spotify_client_secret;
     _spotify_client :=
       match spotify_client_id, spotify_client_secret with
       | Some i, Some s =>
           if truthy_str (Some i) && truthy_str (Some s)
           then Some {| client_id := i; client_secret := s |}
           else None
       | _, _ => None
       end;
     _stats := None;
     available := None |}.

(** Allocation of a [Node], with the listener registration that ends
    [__init__]. *)
Definition new_Node (pool : pool_ref) (host port password identifier : string)
    (secure : bool) (spotify_client_id spotify_client_secret : option string)
  : World -> addr * World :=
  fun w =>
    let a := next w in
    let n := Node_init pool host port password identifier secure
               spotify_client_id spotify_client_secret in
    (a, emit (EvAddListener a)
          {| _nodes := _nodes w;
             heap := fun b => if Nat.eqb b a then n else heap w b;
             next := S a; log := log w |}).

(** [Node.player_count] *)
Definition player_count (n : Node) : nat := length (_players n).

(** [Node.send].  The message of [NodeNotAvailable] reads
    [self.identifier], an attribute [Node] does not have, so the guard ends
    in an [AttributeError]. *)
Definition send (self : addr) (data : json) : M unit :=
  fun w =>
    if negb (truthy_flag (_available (heap w self))) then
      (Raise AttributeError, w)
    else (Ok tt, emit (EvSend self data) w).

(** What [ws_connect] does is the network's business: it opens the socket
    or raises. *)
Inductive ws_error : Type :=
| WSServerHandshakeError
| InvalidURL
| gaierror
| OtherWsError (tag : string).

Inductive ws_outcome : Type :=
| WsOpened
| WsFailed (e : ws_error).

Definition configureResuming : json :=
  JObj [("op", JStr "configureResuming"); ("key", JStr "myResumeKey");
        ("timeout", JNum 60)].

(** [Node.connect] *)
Definition connect (self : addr) (o : ws_outcome) : M addr :=
  fun w =>
    let ident := _identifier (heap w self) in
    match o with
    | WsOpened =>
        let w := emit (EvWsConnect self (_websocket_uri (heap w self))) w in
        let w := update self (set_websocket (Some {| closed := false |})) w in
        let w := emit (EvCreateTask self) w in
        let w := update self (set_task (Some {| cancelled := false |})) w in
        let w := update self (set__available (Some true)) w in
        match send self configureResuming w with
        | (Ok _, w) => (Ok self, w)
        | (Raise e, w) => (Raise e, w)
        end
    | WsFailed WSServerHandshakeError =>
        (Raise (NodeConnectionFailure
                  ("The password for node '" ++ ident ++ "' is invalid.")%string), w)
    | WsFailed InvalidURL =>
        (Raise (NodeConnectionFailure
                  ("The URI for node '" ++ ident ++ "' is invalid.")%string), w)
    | WsFailed gaierror =>
        (Raise (NodeConnectionFailure
                  ("The node '" ++ ident ++ "' failed to connect.")%string), w)
    | WsFailed (OtherWsError tag) => (Raise (ExternalError tag), w)
    end.

(** [del self._pool.nodes[key]].  On the class, [nodes] is the [property]
    object itself, which has no item deletion; on an instance it is the
    registry. *)
Definition del_pool_nodes (pool : pool_ref) (key : string) : M unit :=
  fun w =>
    match pool with
    | PoolClass => (Raise TypeError, w)
    | PoolInstance =>
        match dict_del String.eqb (_nodes w) key with
        | Some d => (Ok tt, set_nodes d w)
        | None => (Raise KeyError, w)
        end
    end.

(** [Node.disconnect] *)
Definition disconnect (self : addr) : M unit :=
  fun w =>
    let w := fold_left (fun w p => emit (EvDestroy p) w)
               (dict_values (_players (heap w self))) w in
    match _websocket (heap w self) with
    | None => (Raise AttributeError, w)
    | Some _ =>
        let w := emit (EvWsClose self) w in
        let w := update self (set_websocket (Some {| closed := true |})) w in
        match del_pool_nodes (_pool (heap w self))
                (_identifier (heap w self)) w with
        | (Raise e, w) => (Raise e, w)
        | (Ok _, w) =>
            let w := update self (set_available (Some false)) w in
            match _task (heap w self) with
            | None => (Raise AttributeError, w)
            | Some _ =>
                let w := emit (EvTaskCancel self) w in
                (Ok tt, update self (set_task (Some {| cancelled := true |})) w)
            end
        end
    end.

(** *** NodePool *)

(** [NodePool.get_node]: the address of the chosen node, or Python's
    [None]. *)
Definition available_nodes (w : World) : dict string addr :=
  filter (fun '(_, node) => truthy_flag (_available (heap w node))) (_nodes w).

Definition get_node (identifier : option string) (w : World)
  : result (option addr) :=
  match available_nodes w with
  | [] => Raise (NoNodesAvailable "There are no nodes available.")
  | _ :: _ =>
      match identifier with
      | None =>
          match sorted (fun n => length (_players (heap w n)))
                  (dict_values (available_nodes w)) with
          | n :: _ => Ok (Some n)
          | [] => Raise IndexError
          end
      | Some i => Ok (sget (available_nodes w) i)
      end
  end.

(** [NodePool.create_node] *)
Definition create_node (host port password identifier : string)
    (secure : bool) (spotify_client_id spotify_client_secret : option string)
    (o : ws_outcome) : M addr :=
  fun w =>
    if dict_contains String.eqb (_nodes w) identifier then
      (Raise (NodeCreationError
                ("A node with identifier '" ++ identifier
                   ++ "' already exists.")%string), w)
    else
      let '(node, w) :=
        new_Node PoolClass host port password identifier secure
          spotify_client_id spotify_client_secret w in
      match connect node o w with
      | (Raise e, w) => (Raise e, w)
      | (Ok _, w) =>
          (Ok node,
           set_nodes (dict_set String.eqb (_nodes w)
                        (_identifier (heap w node)) node) w)
      end.

(** *** Collaborators of the node

    [session_get_json url authorization] is the decoded body of the REST
    reply; [spotify_search] is [spotify.Client.search]; [quote], [py_str]
    (the formatting of a value inside an f-string) and [py_int] (the builtin
    [int], which may raise) are Python's. *)
Record Env : Type := {
  session_get_json : string -> string -> dict string json;
  quote : string -> string;
  py_str : json -> string;
  py_int : json -> result Z
}.

(** [Node._handle_payload].  A [Player] object is truthy (it defines
    neither [__bool__] nor [__len__]), so [not player] holds exactly when
    the lookup gave [None]. *)
Definition _handle_payload (env : Env) (self : addr)
    (data : dict string json) : M unit :=
  fun w =>
    let op := get_or_null data "op" in
    if negb (truthy op) then (Ok tt, w)
    else if eq_str op "stats" then
      (Ok tt, update self (set_stats (Some data)) w)
    else
      match sget data "guildId" with
      | None => (Raise KeyError, w)
      | Some g =>
          match py_int env g with
          | Raise e => (Raise e, w)
          | Ok guild_id =>
              match zget (_players (heap w self)) guild_id with
              | None => (Ok tt, w)
              | Some player =>
                  if eq_str op "event" then
                    (Ok tt, emit (EvDispatchEvent player data) w)
                  else if eq_str op "playerUpdate" then
                    (Ok tt, emit (EvUpdateState player data) w)
                  else (Ok tt, w)
              end
          end
      end.

(** Modelled from the spec: [pomice/objects.py], which declares [Track]
    and [Playlist], is absent.  Both are immutable value objects; a [Track]
    keeps the opaque identifier, the metadata dictionary, the request
    context, the provenance flag and the search source it was built with; a
    [Playlist] keeps its metadata and the ordered sequence of tracks it was
    given, as raw backend entries or as tracks already built, and its track
    count is the length of that sequence. *)
Record Track : Type := {
  track_id : json;
  info : json;
  ctx : Ctx;
  spotify : bool;
  search_type : option string
}.

Inductive playlist_tracks : Type :=
| RawTracks (entries : json)
| BuiltTracks (l : list Track).

Record Playlist : Type := {
  playlist_info : json;
  tracks : playlist_tracks;
  pl_ctx : Ctx;
  pl_spotify : bool;
  pl_search_type : option string;
  thumbnail : json;
  uri : json
}.

Definition track_count (p : Playlist) : option nat :=
  match tracks p with
  | RawTracks (JArr l) => Some (length l)
  | RawTracks _ => None
  | BuiltTracks l => Some (length l)
  end.

(** Metadata of a track, read from its dictionary. *)
Definition title (t : Track) : result json := subscript (info t) "title".
Definition sourceName (t : Track) : result json :=
  subscript (info t) "sourceName".

(** What the catalog client returns: the attributes the node reads from a
    [spotify.Track], and from a collection (album, artist or playlist). *)
Record sp_track : Type := {
  sp_id : json; sp_artists : json; sp_length : json;
  sp_name : json; sp_uri : json; sp_image : json
}.

Inductive spotify_result : Type :=
| SpTrack (t : sp_track)
| SpCollection (name image uri : json) (tracks : list sp_track).

Definition spotify_track (c : Ctx) (t : sp_track) : Track :=
  {| track_id := sp_id t;
     info := JObj [("identifier", sp_id t);
                   ("isSeekable", JBool true);
                   ("author", sp_artists t);
                   ("length", sp_length t);
                   ("isStream", JBool false);
                   ("position", JNum 0);
                   ("sourceName", JNull);
                   ("title", sp_name t);
                   ("uri", sp_uri t);
                   ("thumbnail", sp_image t)];
     ctx := c; spotify := true; search_type := None |}.

(** What [get_tracks] returns: a list of tracks, a playlist, or [None]
    when it falls off its last [elif]. *)
Inductive resolution : Type :=
| RTracks (l : list Track)
| RPlaylist (p : Playlist)
| RNone.

(** The comprehension over [data["tracks"]] of the last branch.  Iterating
    a list visits its entries; an empty string or dictionary gives no
    entries; a non-empty one yields strings, which have no string
    subscript; other values are not iterable. *)
Fixpoint build_tracks (c : Ctx) (st : string) (entries : list json)
  : result (list Track) :=
  match entries with
  | [] => Ok []
  | track :: rest =>
      tid <- subscript track "track" ;;
      inf <- subscript track "info" ;;
      ts <- build_tracks c st rest ;;
      Ok ({| track_id := tid; info := inf; ctx := c; spotify := false;
             search_type := Some st |} :: ts)
  end.

Definition tracks_of (c : Ctx) (st : string) (v : json) : result (list Track) :=
  match v with
  | JArr l => build_tracks c st l
  | JStr EmptyString => Ok []
  | JObj [] => Ok []
  | _ => Raise TypeError
  end.

(** The interpretation of [loadType], lines 395-425. *)
Definition interpret_load (env : Env) (data : dict string json) (c : Ctx)
    (st : string) : result resolution :=
  let load_type := get_or_null data "loadType" in
  if negb (truthy load_type) then
    Raise (TrackLoadError
             "There was an error while trying to load this track. [NO_LOADTYPE]")
  else if eq_str load_type "NO_MATCHES" then
    Raise (TrackLoadError "No matches found. [NO_MATCHES]")
  else if eq_str load_type "LOAD_FAILED" then
    exception <- subscript (JObj data) "exception" ;;
    message <- subscript exception "message" ;;
    severity <- subscript exception "severity" ;;
    Raise (TrackLoadError
             (py_str env message ++ " [" ++ py_str env severity ++ "]")%string)
  else if eq_str load_type "PLAYLIST_LOADED" then
    pinfo <- subscript (JObj data) "playlistInfo" ;;
    entries <- subscript (JObj data) "tracks" ;;
    Ok (RPlaylist {| playlist_info := pinfo; tracks := RawTracks entries;
                     pl_ctx := c; pl_spotify := false;
                     pl_search_type := Some st;
                     thumbnail := JNull; uri := JNull |})
  else if eq_str load_type "SEARCH_RESULT" || eq_str load_type "TRACK_LOADED" then
    entries <- subscript (JObj data) "tracks" ;;
    ts <- tracks_of c st entries ;;
    Ok (RTracks ts)
  else Ok RNone.

(** The query after the first [if] of [get_tracks]; [st] is the text of
    [search_type]. *)
Definition effective_query (query st : string) (local : bool) : string :=
  if negb (URL_REGEX_search query) && negb local
  then (st ++ ":" ++ query)%string
  else query.

Definition loadtracks (env : Env) (self : Node) (query : string)
  : dict string json :=
  session_get_json env
    (_rest_uri self ++ "/loadtracks?identifier=" ++ quote env query)%string
    (_password self).

Definition credentials_error : string :=
  ("You did not provide proper Spotify client authorization credentials. "
   ++ "If you would like to use the Spotify searching feature, "
   ++ "please obtain Spotify API credentials here: https://developer.spotify.com/")%string.

(** [Node.get_tracks].  [spotify_search] is the catalog lookup, asked only
    where the code calls it. *)
Definition get_tracks (env : Env)
    (spotify_search : SpotifyClient -> string -> result spotify_result)
    (self : Node) (query : string) (c : Ctx) (st : string) (local : bool)
  : result resolution :=
  let query := effective_query query st local in
  match SPOTIFY_URL_REGEX_match query with
  | Some _ =>
      if negb (truthy_str (_spotify_client_id self))
         && negb (truthy_str (_spotify_client_secret self)) then
        Raise (InvalidSpotifyClientAuthorization credentials_error)
      else
        match _spotify_client self with
        | None => Raise AttributeError
        | Some client =>
            spotify_results <- spotify_search client query ;;
            match spotify_results with
            | SpTrack t => Ok (RTracks [spotify_track c t])
            | SpCollection name image u ts =>
                Ok (RPlaylist
                      {| playlist_info :=
                           JObj [("name", name); ("selectedTrack", JNum 0)];
                         tracks := BuiltTracks (map (spotify_track c) ts);
                         pl_ctx := c; pl_spotify := true;
                         pl_search_type := None;
                         thumbnail := image; uri := u |})
            end
        end
  | None =>
      match DISCORD_MP3_URL_REGEX_match query with
      | Some discord_url =>
          let data := loadtracks env self query in
          all <- subscript (JObj data) "tracks" ;;
          track <- index0 all ;;
          inf <- method_get track "info" ;;
          tid <- subscript track "track" ;;
          ident <- method_get inf "identifier" ;;
          len <- method_get inf "length" ;;
          u <- method_get inf "uri" ;;
          Ok (RTracks
                [{| track_id := tid;
                    info := JObj [("identifier", ident);
                                  ("isSeekable", JBool true);
                                  ("author", JStr "Unknown");
                                  ("length", len);
                                  ("isStream", JBool false);
                                  ("position", JNum 0);
                                  ("sourceName", JStr "http");
                                  ("title", JStr (file discord_url));
                                  ("uri", u)];
                    ctx := c; spotify := false; search_type := None |}])
      | None =>
          interpret_load env (loadtracks env self query) c st
      end
  end.

End Pool.

(* ================================================================== *)
(** ** Vocabulary of the statements, and sample states *)
(* ================================================================== *)

Module Spec.

Import Pool.

(** A node is available when it is registered and its flag is set. *)
Definition is_available (w : World) (a : addr) : Prop :=
  In a (dict_values (_nodes w)) /\ truthy_flag (_available (heap w a)) = true.

(** The available nodes in registration order. *)
Definition available_values (w : World) : list addr :=
  filter (fun a => truthy_flag (_available (heap w a)))
    (dict_values (_nodes w)).

(** The error of an empty selection. *)
Definition no_nodes : exn := NoNodesAvailable "There are no nodes available.".

(** A backend track entry that carries both keys the node reads. *)
Definition entry_ok (e : json) : Prop :=
  exists d tid inf,
    e = JObj d /\ sget d "track" = Some tid /\ sget d "info" = Some inf.

(** The backend's reply to the load request of the last branch. *)
Definition generic_response (env : Env) (self : Node)
    (query st : string) (local : bool) : dict string json :=
  loadtracks env self (effective_query query st local).

(** The track built from a backend entry. *)
Definition built_from (e : json) (t : Track) : Prop :=
  subscript e "track" = Ok (track_id t) /\ subscript e "info" = Ok (info t).

End Spec.

Module Sample.

Import Pool.

Definition blank : Node :=
  Node_init PoolClass "localhost" "2333" "youshallnotpass" "BLANK" false None None.

(** A connected node with [k] players, registered by hand under [ident]. *)
Definition node_with (ident : string) (flag : option bool)
    (players : dict Z Player) : Node :=
  {| _host := "localhost"; _port := "2333"; _pool := PoolInstance;
     _password := "youshallnotpass"; _identifier := ident; _secure := false;
     _websocket_uri := "ws://localhost:2333";
     _rest_uri := "http://localhost:2333";
     _websocket := Some {| closed := false |};
     _task := Some {| cancelled := false |};
     _available := flag; _players := players;
     _spotify_client_id := None; _spotify_client_secret := None;
     _spotify_client := None; _stats := None; available := None |}.

Definition empty_world : World :=
  {| _nodes := []; heap := fun _ => blank; next := 0; log := [] |}.

(** One registered node, not available. *)
Definition world_down : World :=
  {| _nodes := [("A", 0)];
     heap := fun _ => node_with "A" (Some false) [];
     next := 1; log := [] |}.

(** Node A is registered but not available, B and C are available and
    carry one player each. *)
Definition world_mixed : World :=
  {| _nodes := [("A", 0); ("B", 1); ("C", 2)];
     heap := fun a =>
       match a with
       | 0 => node_with "A" (Some false) []
       | 1 => node_with "B" (Some true) [(10%Z, 100)]
       | _ => node_with "C" (Some true) [(20%Z, 200)]
       end;
     next := 3; log := [] |}.

(** The pool after [create_node(identifier="MAIN", ...)] on an empty
    registry, the socket having opened. *)
Definition world_main : World :=
  snd (create_node "localhost" "2333" "youshallnotpass" "MAIN" false
         None None WsOpened empty_world).

(** Two frames for node B of the sample pool: one for a guild without a
    player, one for the guild that has player 100. *)
Definition frame_unknown_guild : dict string json :=
  [("op", JStr "event"); ("type", JStr "TrackEndEvent");
   ("guildId", JStr "42")].

Definition frame_known_guild : dict string json :=
  [("op", JStr "event"); ("type", JStr "TrackEndEvent");
   ("guildId", JNum 10)].

(** A backend that answers by identifier, and the Python builtins on the
    values the samples use. *)
Definition sample_entry (id : string) : json :=
  JObj [("track", JStr id); ("info", JObj [("title", JStr id)])].

Definition sample_backend (url authorization : string) : dict string json :=
  if String.eqb url "http://localhost:2333/loadtracks?identifier=ytsearch:silence"
  then [("tracks", JArr [])]
  else if String.eqb url "http://localhost:2333/loadtracks?identifier=ytsearch:nothing"
  then [("loadType", JStr "NO_MATCHES"); ("tracks", JArr [])]
  else if String.eqb url "http://localhost:2333/loadtracks?identifier=ytsearch:broken"
  then [("loadType", JStr "LOAD_FAILED"); ("tracks", JArr []);
        ("exception", JObj [("message", JStr "Video unavailable");
                            ("severity", JStr "COMMON")])]
  else if String.eqb url "http://localhost:2333/loadtracks?identifier=ytsearch:mix"
  then [("loadType", JStr "PLAYLIST_LOADED");
        ("playlistInfo", JObj [("name", JStr "mix"); ("selectedTrack", JNum 0)]);
        ("tracks", JArr [sample_entry "t1"; sample_entry "t2"])]
  else if String.eqb url "http://localhost:2333/loadtracks?identifier=ytsearch:song"
  then [("loadType", JStr "SEARCH_RESULT");
        ("tracks", JArr [sample_entry "t1"; sample_entry "t2"; sample_entry "t3"])]
  else if String.eqb url
            "http://localhost:2333/loadtracks?identifier=https://cdn.discordapp.com/attachments/1/2/song.mp3"
  then [("loadType", JStr "TRACK_LOADED"); ("tracks", JArr [sample_entry "t9"])]
  else [("loadType", JStr "NO_MATCHES"); ("tracks", JArr [])].

Definition sample_str (v : json) : string :=
  match v with
  | JStr s => s
  | JNull => "None"
  | JBool true => "True"
  | JBool false => "False"
  | _ => "?"
  end.

Definition sample_int (v : json) : result Z :=
  match v with
  | JNum q => Ok (Z.quot (Qnum q) (Zpos (Qden q)))
  | JStr "42" => Ok 42%Z
  | JStr "7" => Ok 7%Z
  | _ => Raise (ValueError "invalid literal for int()")
  end.

Definition sample_env : Env :=
  {| session_get_json := sample_backend;
     quote := fun s => s;
     py_str := sample_str;
     py_int := sample_int |}.

(** A backend that finds nothing, whatever is asked. *)
Definition silent_env : Env :=
  {| session_get_json :=
       fun _ _ => [("loadType", JStr "NO_MATCHES"); ("tracks", JArr [])];
     quote := fun s => s;
     py_str := sample_str;
     py_int := sample_int |}.

(** A node given a client id and no client secret. *)
Definition half_configured : Node :=
  Node_init PoolClass "localhost" "2333" "youshallnotpass" "MAIN" false
    (Some "5f573c9620494bae87890c0f08a60293") None.

Definition attachment_url : string :=
  "https://cdn.discordapp.com/attachments/1/2/song.mp3".

Definition catalog_url : string :=
  "https://open.spotify.com/track/4uLU6hMCjMI75M1A2tKUQC".

Definition no_catalog (_ : SpotifyClient) (_ : string) : result spotify_result :=
  Raise (ExternalError "SpotifyRequestException").

End Sample.

(* ================================================================== *)
(** ** filters.py: the equalizer *)
(* ================================================================== *)

Module Equalizer.

(** [levels] is a list of (band, gain) pairs. *)
Definition levels_t : Type := list (Z * Q).

(** [_dict.update(levels)] on an empty [defaultdict(int)]: the pairs are
    assigned from left to right. *)
Definition update (levels : levels_t) : dict Z Q :=
  fold_left (fun d lv => dict_set Z.eqb d (fst lv) (snd lv)) levels [].

(** [_dict[i]] on a [defaultdict(int)]: a missing key reads as [int()]. *)
Definition default_get (d : dict Z Q) (i : Z) : Q :=
  match zget d i with
  | Some g => g
  | None => 0%Q
  end.

(** [range(15)] *)
Definition range15 : list Z := map Z.of_nat (seq 0 15).

Definition band_entry (i : Z) (g : Q) : json :=
  JObj [("band", JNum (inject_Z i)); ("gain", JNum g)].

(** [Equalizer._factory] *)
Definition _factory (levels : levels_t) : list json :=
  let _dict := update levels in
  map (fun i => band_entry i (default_get _dict i)) range15.

Record Equalizer_obj : Type := {
  eq : list json;
  raw : levels_t;
  _name : string;
  eq_payload : json
}.

(** [Equalizer.__init__] *)
Definition Equalizer (levels : levels_t) (name : string) : Equalizer_obj :=
  {| eq := _factory levels; raw := levels; _name := name;
     eq_payload := JObj [("equalizer", JArr (_factory levels))] |}.

(** [Equalizer.build] *)
Definition build (levels : levels_t) (name : string) : Equalizer_obj :=
  Equalizer levels name.

(** [Equalizer.flat] *)
Definition flat : Equalizer_obj :=
  Equalizer
    [(0%Z, 0); (1%Z, 0); (2%Z, 0); (3%Z, 0); (4%Z, 0);
     (5%Z, 0); (6%Z, 0); (7%Z, 0); (8%Z, 0); (9%Z, 0);
     (10%Z, 0); (11%Z, 0); (12%Z, 0); (13%Z, 0); (14%Z, 0)]%Q
    "Flat".

(** [Equalizer.piano]: fourteen levels are listed. *)
Definition piano : Equalizer_obj :=
  Equalizer
    [(0%Z, -(1 # 4)); (1%Z, -(1 # 4)); (2%Z, -(1 # 8)); (3%Z, 0);
     (4%Z, 1 # 4); (5%Z, 1 # 4); (6%Z, 0); (7%Z, -(1 # 4)); (8%Z, -(1 # 4));
     (9%Z, 0); (10%Z, 0); (11%Z, 1 # 2); (12%Z, 1 # 4); (13%Z, -(1 # 40))]%Q
    "Piano".

(** The gain that [levels] gives band [i]: the one of the last pair for
    [i], if any. *)
Definition last_gain (levels : levels_t) (i : Z) : option Q :=
  option_map snd (find (fun lv => Z.eqb (fst lv) i) (rev levels)).

End Equalizer.

(* ================================================================== *)
(** ** pool.py: the remaining methods of a node *)
(* ================================================================== *)

Module NodeMore.

Import Pool.

(** [Node.is_connected] *)
Definition is_connected (n : Node) : bool :=
  match _websocket n with
  | Some ws => negb (closed ws)
  | None => false
  end.

(** [Node.get_player] *)
Definition get_player (n : Node) (guild_id : Z) : option Player :=
  zget (_players n) guild_id.

(** [NodePool.node_count] *)
Definition node_count (w : World) : nat := length (dict_values (_nodes w)).

(** The call [_update_handler] makes on a player, with its argument. *)
Inductive voice_call : Type :=
| on_voice_server_update (p : Player) (d : json)
| on_voice_state_update (p : Player) (d : json).

(** [int(data["d"][key])] *)
Definition int_field (env : Env) (data : dict string json) (key : string)
  : result Z :=
  d <- subscript (JObj data) "d" ;;
  v <- subscript d key ;;
  py_int env v.

(** [Node._update_handler], for a gateway payload [data]; [bot_user_id]
    is [self._bot.user.id].  The result is the call made on a player, if
    any.  The [KeyError] of the lookup in [_players] is caught. *)
Definition _update_handler (env : Env) (bot_user_id : Z) (self : Node)
    (data : dict string json) : result (option voice_call) :=
  match data with
  | [] => Ok None
  | _ :: _ =>
      t <- subscript (JObj data) "t" ;;
      if eq_str t "VOICE_SERVER_UPDATE" then
        guild_id <- int_field env data "guild_id" ;;
        match zget (_players self) guild_id with
        | None => Ok None
        | Some player =>
            d <- subscript (JObj data) "d" ;;
            Ok (Some (on_voice_server_update player d))
        end
      else if eq_str t "VOICE_STATE_UPDATE" then
        user_id <- int_field env data "user_id" ;;
        if negb (Z.eqb user_id bot_user_id) then Ok None
        else
          guild_id <- int_field env data "guild_id" ;;
          match zget (_players self) guild_id with
          | None => Ok None
          | Some player =>
              d <- subscript (JObj data) "d" ;;
              Ok (Some (on_voice_state_update player d))
          end
      else Ok None
  end.

(** A registry as the pool keeps it: identifiers pairwise distinct, every
    registered address allocated. *)
Definition registry_ok (w : World) : Prop :=
  NoDup (dict_keys (_nodes w)) /\
  forall i a, In (i, a) (_nodes w) -> a < next w.

End NodeMore.

(* ================================================================== *)
(** ** spotify/artist.py *)
(* ================================================================== *)

Module SpotifyArtist.

(** [for x in v]: the elements a decoded value yields. *)
Definition py_iter (v : json) : result (list json) :=
  match v with
  | JArr l => Ok l
  | JStr s =>
      Ok (map (fun ch => JStr (String ch EmptyString))
            (list_ascii_of_string s))
  | JObj d => Ok (map (fun kv => JStr (fst kv)) d)
  | _ => Raise TypeError
  end.

(** [len(v)] *)
Definition py_len (v : json) : result nat :=
  match v with
  | JArr l => Ok (length l)
  | JStr s => Ok (String.length s)
  | JObj d => Ok (length d)
  | _ => Raise TypeError
  end.

(** [v[-1]] *)
Definition index_last (v : json) : result json :=
  match v with
  | JArr [] => Raise IndexError
  | JArr (x :: t) => Ok (last t x)
  | JStr EmptyString => Raise IndexError
  | JStr (String ch t) =>
      Ok (JStr (String (last (list_ascii_of_string t) ch) EmptyString))
  | JObj _ => Raise KeyError
  | _ => Raise TypeError
  end.

Record Artist_obj (T : Type) : Type := {
  name : string;
  artists : json;
  tracks : list T;
  total_tracks : nat;
  id : json;
  image : json;
  uri : json
}.
Arguments name {T} _.
Arguments artists {T} _.
Arguments tracks {T} _.
Arguments total_tracks {T} _.
Arguments id {T} _.
Arguments image {T} _.
Arguments uri {T} _.

(** The comprehension [[Track(track) for track in ...]]. *)
Fixpoint build_all {T : Type} (Track : json -> result T) (l : list json)
  : result (list T) :=
  match l with
  | [] => Ok []
  | x :: rest =>
      t <- Track x ;;
      ts <- build_all Track rest ;;
      Ok (t :: ts)
  end.

(** [Artist.__init__].  [Track] is the constructor of [spotify.Track],
    declared in a file that is not part of the sources at hand; [py_str]
    formats a value inside an f-string. *)
Definition Artist {T : Type} (py_str : json -> string)
    (Track : json -> result T) (data artist : dict string json)
  : result (Artist_obj T) :=
  n <- subscript (JObj artist) "name" ;;
  a <- subscript (JObj artist) "name" ;;
  raw <- subscript (JObj data) "tracks" ;;
  elems <- py_iter raw ;;
  ts <- build_all Track elems ;;
  total <-
    (if truthy raw then
       k <- py_len raw ;;
       match k with
       | 0 => Ok 0
       | S _ => py_len raw
       end
     else Ok 0) ;;
  i <- subscript (JObj artist) "id" ;;
  img <-
    (let v := get_or_null artist "images" in
     if truthy v then
       k <- py_len v ;;
       match k with
       | 0 => Ok JNull
       | S _ =>
           imgs <- subscript (JObj artist) "images" ;;
           l <- index_last imgs ;;
           subscript l "url"
       end
     else Ok JNull) ;;
  ext <- subscript (JObj artist) "external_urls" ;;
  u <- subscript ext "spotify" ;;
  Ok {| name := ("Top Tracks by " ++ py_str n)%string; artists := a;
        tracks := ts; total_tracks := total; id := i; image := img;
        uri := u |}.

End SpotifyArtist.

Module Sample2.

Import Pool.

(** A gateway payload telling that the voice server of guild 10 changed. *)
Definition voice_server_update : dict string json :=
  [("t", JStr "VOICE_SERVER_UPDATE");
   ("d", JObj [("guild_id", JNum 10); ("token", JStr "tok")])].

(** The voice state of user 7 in guild 10. *)
Definition voice_state_update : dict string json :=
  [("t", JStr "VOICE_STATE_UPDATE");
   ("d", JObj [("guild_id", JNum 10); ("user_id", JStr "7")])].

Definition stats_frame : dict string json :=
  [("op", JStr "stats"); ("players", JNum 3)].

Definition player_update_frame : dict string json :=
  [("op", JStr "playerUpdate"); ("guildId", JNum 10);
   ("state", JObj [("position", JNum 1000)])].

(** A node built with both credentials. *)
Definition configured : Node :=
  Node_init PoolClass "localhost" "2333" "youshallnotpass" "MAIN" false
    (Some "5f573c9620494bae87890c0f08a60293")
    (Some "212476d9b0f3472eaa762d90b19b0ba8").

Definition a_track : sp_track :=
  {| sp_id := JStr "4uLU6hMCjMI75M1A2tKUQC"; sp_artists := JStr "Rick Astley";
     sp_length := JNum 213000; sp_name := JStr "Never Gonna Give You Up";
     sp_uri := JStr "https://open.spotify.com/track/4uLU6hMCjMI75M1A2tKUQC";
     sp_image := JNull |}.

(** A catalog that knows one track and one album of two tracks. *)
Definition catalog (_ : SpotifyClient) (q : string) : result spotify_result :=
  if String.eqb q "https://open.spotify.com/track/4uLU6hMCjMI75M1A2tKUQC"
  then Ok (SpTrack a_track)
  else Ok (SpCollection (JStr "Album") JNull (JStr q) [a_track; a_track]).

(** A backend whose reply carries a load type the node does not know, and
    one whose second entry lacks its [info]. *)
Definition odd_env : Env :=
  {| session_get_json :=
       fun url _ =>
         if String.eqb url
              "http://localhost:2333/loadtracks?identifier=ytsearch:odd"
         then [("loadType", JStr "SHRUG"); ("tracks", JArr [])]
         else [("loadType", JStr "SEARCH_RESULT");
               ("tracks", JArr [Sample.sample_entry "t1";
                                JObj [("track", JStr "t2")];
                                Sample.sample_entry "t3"])];
     quote := fun s => s;
     py_str := Sample.sample_str;
     py_int := Sample.sample_int |}.

(** The reply of the catalog for an artist with two images, and a track
    constructor that keeps the raw entry. *)
Definition artist_data : dict string json :=
  [("tracks", JArr [JStr "a"; JStr "b"; JStr "c"])].

Definition artist_info : dict string json :=
  [("name", JStr "Rick Astley"); ("id", JStr "0gxyHStUsqpMadRV0Di1Qt");
   ("images", JArr [JObj [("url", JStr "big.jpg")];
                    JObj [("url", JStr "small.jpg")]]);
   ("external_urls", JObj [("spotify", JStr "https://open.spotify.com/artist/0gxyHStUsqpMadRV0Di1Qt")])].

Definition keep (v : json) : result json := Ok v.

End Sample2.

(* ================================================================== *)
(** * Properties *)
(* ================================================================== *)

(** ** Filter construction *)

Section FilterFacts.
Import Filters.

Lemma lt_spec (x y : Q) : lt x y = true <-> (x < y)%Q.
Proof.
  unfold lt. rewrite negb_true_iff.
  split; intro H.
  - apply Qnot_le_lt. intro Hle.
    apply Qle_bool_iff in Hle. congruence.
  - destruct (Qle_bool y x) eqn:E; [|reflexivity].
    apply Qle_bool_iff in E. lra.
Qed.

(** No number is both below 0 and above 1: the chained guard of
    [ChannelMix] never fires. *)
Lemma chained_gt_0_gt_1_false (x : Q) : chained_gt_0_gt_1 x = false.
Proof.
  unfold chained_gt_0_gt_1.
  destruct (lt x 0) eqn:E0; [|reflexivity].
  destruct (lt 1 x) eqn:E1; [|reflexivity].
  apply lt_spec in E0. apply lt_spec in E1. lra.
Qed.

(** Whatever the four ratios, [ChannelMix] builds the filter and the
    payload carries the ratios under [channelMix]. *)
Lemma ChannelMix_always_constructs (ll rr lr rl : option Q) :
  exists f,
    ChannelMix ll rr lr rl = Ok f /\
    cm_payload f =
      JObj [("channelMix",
             JObj [("leftToLeft", JNum (kw 1 ll));
                   ("leftToRight", JNum (kw 0 lr));
                   ("rightToLeft", JNum (kw 0 rl));
                   ("rightToRight", JNum (kw 1 rr))])].
Proof.
  unfold ChannelMix.
  rewrite !chained_gt_0_gt_1_false.
  eexists. split; reflexivity.
Qed.

(** C7, at the input where the code departs from it:
    [ChannelMix(left_to_left=2)] raises nothing and yields a filter whose
    payload carries the out-of-range ratio. *)
Theorem ChannelMix_accepts_ratio_two :
  exists f,
    ChannelMix (Some 2%Q) None None None = Ok f /\
    left_to_left f = 2%Q /\
    cm_payload f =
      JObj [("channelMix",
             JObj [("leftToLeft", JNum 2);
                   ("leftToRight", JNum 0);
                   ("rightToLeft", JNum 0);
                   ("rightToRight", JNum 1)])].
Proof.
  eexists. split; [reflexivity|]. split; reflexivity.
Qed.

(** C8: [Timescale(speed=-1)], [Tremolo(depth=1.5)] and
    [Vibrato(frequency=15)] each raise [FilterInvalidArgument];
    [Timescale(speed=1, pitch=1, rate=1)] is built and its payload is
    [{"timescale": {"speed": 1, "pitch": 1, "rate": 1}}]. *)
Theorem filter_construction_examples :
  Timescale (Some (-1)%Q) None None =
    Raise (FilterInvalidArgument "Timescale speed must be more than 0.") /\
  Tremolo None (Some (3 # 2)%Q) =
    Raise (FilterInvalidArgument "Tremolo depth must be between 0 and 1.") /\
  Vibrato (Some 15%Q) None =
    Raise (FilterInvalidArgument
             "Vibrato frequency must be between 0 and 14.") /\
  exists f,
    Timescale (Some 1%Q) (Some 1%Q) (Some 1%Q) = Ok f /\
    ts_payload f =
      JObj [("timescale",
             JObj [("speed", JNum 1); ("pitch", JNum 1); ("rate", JNum 1)])].
Proof.
  repeat split.
  eexists. split; reflexivity.
Qed.

(** The validation of the three filters in general: construction fails
    exactly outside the documented ranges. *)
Lemma Timescale_raises_iff (speed pitch rate : Q) :
  (exists msg, Timescale (Some speed) (Some pitch) (Some rate)
               = Raise (FilterInvalidArgument msg))
  <-> (speed < 0 \/ pitch < 0 \/ rate < 0)%Q.
Proof.
  unfold Timescale, kw.
  destruct (lt speed 0) eqn:E1; [|destruct (lt pitch 0) eqn:E2;
    [|destruct (lt rate 0) eqn:E3]].
  all: repeat match goal with
       | H : lt _ _ = true |- _ => apply lt_spec in H
       | H : lt ?a ?b = false |- _ =>
           assert (~ (a < b)%Q)
             by (intro Hc; apply lt_spec in Hc; congruence);
           clear H
       end.
  all: split; [intros [msg Hr]|intro Hr].
  all: try (eexists; reflexivity).
  all: try lra.
  discriminate Hr.
Qed.
End FilterFacts.

(** ** [sorted] is a stable sort, and what its first element is *)

Section SortedFacts.
Context {A : Type} (key : A -> nat).

Lemma insert_by_perm (x : A) (l : list A) :
  Permutation (x :: l) (insert_by key x l).
Proof.
  induction l as [|y t IH]; simpl.
  - apply Permutation_refl.
  - destruct (Nat.leb (key x) (key y)).
    + apply Permutation_refl.
    + eapply perm_trans; [apply perm_swap|].
      apply perm_skip, IH.
Qed.

Lemma sorted_perm (l : list A) : Permutation l (sorted key l).
Proof.
  induction l as [|x t IH]; simpl.
  - apply perm_nil.
  - eapply perm_trans; [apply perm_skip, IH|].
    apply insert_by_perm.
Qed.

Lemma insert_by_ordered (x : A) (l : list A) :
  StronglySorted (fun a b => key a <= key b) l ->
  StronglySorted (fun a b => key a <= key b) (insert_by key x l).
Proof.
  induction 1 as [|y t Hs IH Hall]; simpl.
  - constructor; [constructor|constructor].
  - destruct (Nat.leb (key x) (key y)) eqn:E.
    + apply Nat.leb_le in E.
      constructor; [constructor; assumption|].
      constructor; [assumption|].
      eapply Forall_impl; [|exact Hall].
      intros a Ha. simpl in Ha. lia.
    + apply Nat.leb_gt in E.
      constructor; [exact IH|].
      eapply Permutation_Forall; [apply insert_by_perm|].
      constructor; [lia|exact Hall].
Qed.

Lemma sorted_ordered (l : list A) :
  StronglySorted (fun a b => key a <= key b) (sorted key l).
Proof.
  induction l as [|x t IH]; simpl.
  - constructor.
  - apply insert_by_ordered, IH.
Qed.

(** Elements with equal keys keep their relative order. *)
Lemma insert_by_stable (k : nat) (x : A) (l : list A) :
  filter (fun a => Nat.eqb (key a) k) (insert_by key x l)
  = filter (fun a => Nat.eqb (key a) k) (x :: l).
Proof.
  induction l as [|y t IH]; [reflexivity|].
  simpl insert_by.
  destruct (Nat.leb (key x) (key y)) eqn:E; [reflexivity|].
  apply Nat.leb_gt in E.
  change (filter (fun a => Nat.eqb (key a) k) (y :: insert_by key x t))
    with (if Nat.eqb (key y) k
          then y :: filter (fun a => Nat.eqb (key a) k) (insert_by key x t)
          else filter (fun a => Nat.eqb (key a) k) (insert_by key x t)).
  rewrite IH. simpl.
  destruct (Nat.eqb (key y) k) eqn:Ey, (Nat.eqb (key x) k) eqn:Ex;
    try reflexivity.
  apply Nat.eqb_eq in Ey, Ex. lia.
Qed.

Lemma sorted_stable (k : nat) (l : list A) :
  filter (fun a => Nat.eqb (key a) k) (sorted key l)
  = filter (fun a => Nat.eqb (key a) k) l.
Proof.
  induction l as [|x t IH]; [reflexivity|].
  simpl sorted. rewrite insert_by_stable. simpl. rewrite IH. reflexivity.
Qed.

(** The first element of [sorted key l] is the earliest element of [l]
    whose key is least. *)
Lemma sorted_head (l : list A) :
  l <> [] ->
  exists n rest before after,
    sorted key l = n :: rest /\
    l = before ++ n :: after /\
    (forall m, In m l -> key n <= key m) /\
    (forall m, In m before -> key n < key m).
Proof.
  induction l as [|x t IH]; [congruence|]. intros _.
  destruct t as [|y t'].
  - exists x, [], [], []. simpl. repeat split.
    + intros m [<-|[]]. lia.
    + intros m [].
  - destruct IH as (n & rest & before & after & Hs & Hl & Hmin & Hlt);
      [congruence|].
    change (sorted key (x :: y :: t'))
      with (insert_by key x (sorted key (y :: t'))).
    rewrite Hs. simpl insert_by.
    destruct (Nat.leb (key x) (key n)) eqn:E.
    + apply Nat.leb_le in E.
      exists x, (n :: rest), [], (y :: t'). repeat split.
      * intros m [<-|Hin]; [lia|]. specialize (Hmin m Hin). lia.
      * intros m [].
    + apply Nat.leb_gt in E.
      exists n, (insert_by key x rest), (x :: before), after. repeat split.
      * rewrite Hl. reflexivity.
      * intros m [<-|Hin]; [lia|]. apply Hmin, Hin.
      * intros m [<-|Hin]; [lia|]. apply Hlt, Hin.
Qed.
End SortedFacts.

(** ** Dictionaries *)

Section DictFacts.
Context {V : Type}.

Lemma sget_None_iff (d : dict string V) (k : string) :
  sget d k = None <-> ~ In k (dict_keys d).
Proof.
  unfold sget. induction d as [|[k' v] t IH]; simpl.
  - tauto.
  - destruct (String.eqb k' k) eqn:E.
    + apply String.eqb_eq in E. split; [discriminate|]. tauto.
    + apply String.eqb_neq in E. rewrite IH. tauto.
Qed.

Lemma dict_contains_false (d : dict string V) (k : string) :
  dict_contains String.eqb d k = false <-> ~ In k (dict_keys d).
Proof.
  unfold dict_contains. rewrite <- sget_None_iff. unfold sget.
  destruct (dict_get String.eqb d k); split; congruence.
Qed.

(** Assigning a fresh key appends the binding. *)
Lemma dict_set_fresh (d : dict string V) (k : string) (v : V) :
  ~ In k (dict_keys d) -> dict_set String.eqb d k v = d ++ [(k, v)].
Proof.
  induction d as [|[k' v'] t IH]; simpl; intro H; [reflexivity|].
  destruct (String.eqb k' k) eqn:E.
  - apply String.eqb_eq in E. tauto.
  - rewrite IH; tauto.
Qed.

Lemma sget_app_fresh (d : dict string V) (k : string) (v : V) :
  ~ In k (dict_keys d) -> sget (d ++ [(k, v)]) k = Some v.
Proof.
  unfold sget. induction d as [|[k' v'] t IH]; simpl; intro H.
  - rewrite String.eqb_refl. reflexivity.
  - destruct (String.eqb k' k) eqn:E.
    + apply String.eqb_eq in E. tauto.
    + apply IH. tauto.
Qed.

(** Deleting a registered key of a dictionary removes it for good. *)
Lemma dict_del_present (d : dict string V) (k : string) :
  In k (dict_keys d) -> NoDup (dict_keys d) ->
  exists d', dict_del String.eqb d k = Some d' /\ ~ In k (dict_keys d').
Proof.
  induction d as [|[k' v] t IH]; simpl; intros Hin Hnd; [tauto|].
  inversion Hnd as [|? ? Hnotin Hnd']; subst.
  destruct (String.eqb k' k) eqn:E.
  - apply String.eqb_eq in E. subst. eauto.
  - apply String.eqb_neq in E.
    destruct Hin as [->|Hin]; [congruence|].
    destruct (IH Hin Hnd') as (d' & -> & Hd').
    eexists. split; [reflexivity|]. simpl. tauto.
Qed.

Lemma dict_del_absent (d : dict string V) (k : string) :
  ~ In k (dict_keys d) -> dict_del String.eqb d k = None.
Proof.
  induction d as [|[k' v] t IH]; simpl; intro H; [reflexivity|].
  destruct (String.eqb k' k) eqn:E.
  - apply String.eqb_eq in E. tauto.
  - rewrite IH; tauto.
Qed.
End DictFacts.

(** ** Node selection *)

Section GetNodeFacts.
Import Pool Spec.

Lemma available_nodes_values (w : World) :
  dict_values (available_nodes w) = available_values w.
Proof.
  unfold available_nodes, available_values, dict_values.
  induction (_nodes w) as [|[k a] t IH]; simpl; [reflexivity|].
  destruct (truthy_flag (_available (heap w a))); simpl; rewrite IH;
    reflexivity.
Qed.

Lemma available_values_In (w : World) (a : addr) :
  In a (available_values w) <-> is_available w a.
Proof.
  unfold available_values, is_available. apply filter_In.
Qed.

Lemma available_nodes_nil (w : World) :
  available_nodes w = [] <-> forall a, ~ is_available w a.
Proof.
  split.
  - intros H a Ha. apply available_values_In in Ha.
    rewrite <- available_nodes_values, H in Ha. exact Ha.
  - intros H. destruct (available_nodes w) as [|[k a] t] eqn:E;
      [reflexivity|].
    exfalso. apply (H a). apply available_values_In.
    rewrite <- available_nodes_values, E. left. reflexivity.
Qed.

(** Looking an identifier up among the available nodes finds nothing when
    every node registered under it is unavailable. *)
Lemma sget_available_nodes_None (w : World) (x : string) :
  (forall a, In (x, a) (_nodes w) ->
             truthy_flag (_available (heap w a)) = false) ->
  sget (available_nodes w) x = None.
Proof.
  unfold available_nodes, sget.
  induction (_nodes w) as [|[k a] t IH]; simpl; intro H; [reflexivity|].
  destruct (truthy_flag (_available (heap w a))) eqn:Ea; simpl.
  - destruct (String.eqb k x) eqn:E.
    + apply String.eqb_eq in E. subst k.
      rewrite (H a) in Ea by (left; reflexivity). discriminate.
    + apply IH. intros b Hb. apply H. right. exact Hb.
  - apply IH. intros b Hb. apply H. right. exact Hb.
Qed.

(** C1: with no identifier, [get_node] raises [NoNodesAvailable] exactly
    when no registered node is available, raises nothing else, and
    otherwise returns an available node whose player count is least among
    the available nodes; among the least-loaded ones it is the one
    registered first, which fixes the tie-break. *)
Theorem get_node_least_loaded (w : World) :
  (get_node None w = Raise no_nodes <-> forall a, ~ is_available w a) /\
  match get_node None w with
  | Ok (Some n) =>
      is_available w n /\
      (forall m, is_available w m ->
                 player_count (heap w n) <= player_count (heap w m)) /\
      exists before after,
        available_values w = before ++ n :: after /\
        forall m, In m before ->
                  player_count (heap w n) < player_count (heap w m)
  | Ok None => False
  | Raise e => e = no_nodes
  end.
Proof.
  unfold get_node.
  pose proof (available_nodes_nil w) as Hnil.
  pose proof (available_nodes_values w) as Hval.
  destruct (available_nodes w) as [|b t] eqn:E.
  - split; [|reflexivity].
    split; [intros _; apply Hnil; reflexivity|reflexivity].
  - destruct (sorted_head (fun n => length (_players (heap w n)))
                (dict_values (b :: t)))
      as (n & rest & before & after & Hs & Hl & Hmin & Hlt);
      [discriminate|].
    rewrite Hs. split.
    + split; [discriminate|].
      intro H. apply Hnil in H. discriminate.
    + assert (Hin : In n (available_values w)).
      { rewrite <- Hval, Hl. apply in_elt. }
      split; [apply available_values_In, Hin|]. split.
      * intros m Hm. apply available_values_In in Hm.
        rewrite <- Hval in Hm. apply (Hmin m Hm).
      * exists before, after. split; [rewrite <- Hval; exact Hl|exact Hlt].
Qed.

(** C10: with an identifier [x], [get_node] raises [NoNodesAvailable]
    whenever no registered node is available, whether or not [x] is
    registered; and when some node is available it returns [None] whenever
    every node registered under [x] is unavailable, which covers an
    unregistered [x] and a registered node whose flag is off. *)
Theorem get_node_by_identifier_not_available (w : World) (x : string) :
  ((forall a, ~ is_available w a) -> get_node (Some x) w = Raise no_nodes) /\
  ((exists a, is_available w a) ->
   (forall a, In (x, a) (_nodes w) ->
              truthy_flag (_available (heap w a)) = false) ->
   get_node (Some x) w = Ok None).
Proof.
  unfold get_node. split.
  - intro H. rewrite (proj2 (available_nodes_nil w) H). reflexivity.
  - intros [a Ha] Hx.
    destruct (available_nodes w) as [|b t] eqn:E.
    + exfalso. exact (proj1 (available_nodes_nil w) E a Ha).
    + rewrite <- E. rewrite sget_available_nodes_None by exact Hx.
      reflexivity.
Qed.

Lemma get_node_by_identifier_not_available_witness :
  get_node (Some "A") Sample.world_down = Raise no_nodes /\
  In ("A", 0) (_nodes Sample.world_mixed) /\
  get_node (Some "A") Sample.world_mixed = Ok None /\
  get_node (Some "Z") Sample.world_mixed = Ok None.
Proof.
  split; [|split; [|split]].
  - apply (proj1 (get_node_by_identifier_not_available Sample.world_down "A")).
    intros a [Hin Hav]. simpl in Hav. discriminate Hav.
  - simpl. left. reflexivity.
  - apply (proj2 (get_node_by_identifier_not_available Sample.world_mixed "A")).
    + exists 1. split; [simpl; tauto|reflexivity].
    + intros a Hin. simpl in Hin.
      destruct Hin as [H|[H|[H|[]]]]; inversion H; reflexivity.
  - apply (proj2 (get_node_by_identifier_not_available Sample.world_mixed "Z")).
    + exists 1. split; [simpl; tauto|reflexivity].
    + intros a Hin. simpl in Hin.
      destruct Hin as [H|[H|[H|[]]]]; inversion H.
Defined.

(** With an identifier naming an available node, that node is returned. *)
Lemma get_node_by_identifier_found (w : World) (x : string) (a : addr) :
  sget (available_nodes w) x = Some a ->
  get_node (Some x) w = Ok (Some a).
Proof.
  unfold get_node. intro H.
  destruct (available_nodes w); [discriminate H|]. rewrite H. reflexivity.
Qed.

(** On the sample pool B and C carry one player each; B was registered
    first and is the one chosen. *)
Example get_node_sample_tie :
  get_node None Sample.world_mixed = Ok (Some 1).
Proof. reflexivity. Qed.
End GetNodeFacts.

(** ** Registration *)

Section CreateNodeFacts.
Import Pool Spec.

Variables (host port password identifier : string) (secure : bool).
Variables (spotify_client_id spotify_client_secret : option string).

Local Abbreviation create o :=
  (create_node host port password identifier secure
     spotify_client_id spotify_client_secret o).

Lemma connect_keeps_registry (a : addr) (o : ws_outcome) (w : World) :
  _nodes (snd (connect a o w)) = _nodes w.
Proof.
  unfold connect, send.
  destruct o as [|[| | |tag]]; simpl; try reflexivity.
  rewrite Nat.eqb_refl. reflexivity.
Qed.

(** C2: an identifier already in the registry makes [create_node] raise
    [NodeCreationError] and leaves the whole state as it was; with a fresh
    identifier, a failing [connect] raises (a [NodeConnectionFailure] for
    the three causes the node handles) and leaves the registry as it was,
    and a successful [connect] is followed by the insertion of the new
    node under the identifier. *)
Theorem create_node_registry (w : World) (o : ws_outcome) :
  (In identifier (dict_keys (_nodes w)) ->
   create o w =
     (Raise (NodeCreationError
               ("A node with identifier '" ++ identifier
                  ++ "' already exists.")%string), w)) /\
  (~ In identifier (dict_keys (_nodes w)) ->
   match o with
   | WsFailed cause =>
       exists e w',
         create o w = (Raise e, w') /\
         _nodes w' = _nodes w /\
         match cause with
         | OtherWsError tag => e = ExternalError tag
         | _ => exists msg, e = NodeConnectionFailure msg
         end
   | WsOpened =>
       exists w',
         create o w = (Ok (next w), w') /\
         _nodes w' = _nodes w ++ [(identifier, next w)] /\
         sget (_nodes w') identifier = Some (next w) /\
         _identifier (heap w' (next w)) = identifier /\
         _available (heap w' (next w)) = Some true
   end).
Proof.
  unfold create_node. split; intro Hid.
  - destruct (dict_contains String.eqb (_nodes w) identifier) eqn:E;
      [reflexivity|].
    apply dict_contains_false in E. contradiction.
  - rewrite (proj2 (dict_contains_false (_nodes w) identifier) Hid).
    unfold new_Node, connect, send.
    destruct o as [|[| | |tag]]; simpl.
    + rewrite !Nat.eqb_refl. simpl.
      eexists. split; [reflexivity|]. simpl.
      rewrite !Nat.eqb_refl. simpl.
      rewrite dict_set_fresh by exact Hid.
      repeat split. apply sget_app_fresh, Hid.
    + do 2 eexists. split; [reflexivity|]. split; [reflexivity|]. eauto.
    + do 2 eexists. split; [reflexivity|]. split; [reflexivity|]. eauto.
    + do 2 eexists. split; [reflexivity|]. split; [reflexivity|]. eauto.
    + do 2 eexists. split; [reflexivity|]. split; [reflexivity|]. reflexivity.
Qed.
End CreateNodeFacts.

Lemma create_node_registry_witness :
  fst (Pool.create_node "h" "1" "pw" "A" false None None Pool.WsOpened
         Sample.world_mixed)
  = Raise (NodeCreationError "A node with identifier 'A' already exists.") /\
  (exists e w',
     Pool.create_node "h" "1" "pw" "D" false None None
       (Pool.WsFailed Pool.gaierror) Sample.world_mixed = (Raise e, w') /\
     Pool._nodes w' = Pool._nodes Sample.world_mixed /\
     exists msg, e = NodeConnectionFailure msg) /\
  (exists w',
     Pool.create_node "h" "1" "pw" "D" false None None Pool.WsOpened
       Sample.world_mixed = (Ok 3, w') /\
     Pool._nodes w' = [("A", 0); ("B", 1); ("C", 2); ("D", 3)]).
Proof.
  split; [|split].
  - rewrite (proj1 (create_node_registry "h" "1" "pw" "A" false None None
                      Sample.world_mixed Pool.WsOpened)).
    + reflexivity.
    + simpl. tauto.
  - apply (proj2 (create_node_registry "h" "1" "pw" "D" false None None
                    Sample.world_mixed (Pool.WsFailed Pool.gaierror))).
    simpl. intros [H|[H|[H|[]]]]; discriminate H.
  - destruct (proj2 (create_node_registry "h" "1" "pw" "D" false None None
                       Sample.world_mixed Pool.WsOpened))
      as (w' & Hc & Hn & _).
    + simpl. intros [H|[H|[H|[]]]]; discriminate H.
    + exists w'. split; [exact Hc|exact Hn].
Defined.

(** ** Disconnection *)

Section DisconnectFacts.
Import Pool Spec.

Lemma destroy_all_state (ps : list Player) (w : World) :
  let w' := fold_left (fun w p => emit (EvDestroy p) w) ps w in
  _nodes w' = _nodes w /\ heap w' = heap w /\
  log w' = log w ++ map EvDestroy ps.
Proof.
  revert w. induction ps as [|p ps IH]; intro w; simpl.
  - rewrite app_nil_r. auto.
  - destruct (IH (emit (EvDestroy p) w)) as (Hn & Hh & Hl).
    rewrite Hn, Hh, Hl. simpl. rewrite <- app_assoc. auto.
Qed.

(** A node whose pool is the class, as every node made by [create_node]
    is, never leaves the registry through [disconnect]: the call raises. *)
Lemma disconnect_class_pool (w : World) (self : addr) :
  _pool (heap w self) = PoolClass ->
  exists e w',
    disconnect self w = (Raise e, w') /\
    (e = TypeError \/ e = AttributeError) /\
    _nodes w' = _nodes w.
Proof.
  intro Hp. unfold disconnect.
  destruct (destroy_all_state (dict_values (_players (heap w self))) w)
    as (Hn & Hh & _).
  set (w1 := fold_left _ _ w) in *.
  rewrite Hh.
  destruct (_websocket (heap w self)) eqn:Ews.
  - simpl. rewrite Nat.eqb_refl. simpl. rewrite Hh, Hp. simpl.
    do 2 eexists. split; [reflexivity|]. split; [left; reflexivity|].
    simpl. exact Hn.
  - do 2 eexists. split; [reflexivity|]. split; [right; reflexivity|].
    exact Hn.
Qed.

(** C6, at the inputs where the code departs from it.  The node that
    [create_node] registered as MAIN holds the class as its pool:
    [disconnect] raises [TypeError] at the deletion, MAIN stays in the
    registry and is still returned by a lookup.  Node B of the sample pool
    holds a pool instance: its first [disconnect] removes it, and the
    second raises [KeyError] at the deletion. *)
Theorem disconnect_departures :
  sget (_nodes Sample.world_main) "MAIN" = Some 0 /\
  fst (disconnect 0 Sample.world_main) = Raise TypeError /\
  _nodes (snd (disconnect 0 Sample.world_main)) = [("MAIN", 0)] /\
  get_node (Some "MAIN") (snd (disconnect 0 Sample.world_main))
    = Ok (Some 0) /\
  fst (disconnect 1 Sample.world_mixed) = Ok tt /\
  _nodes (snd (disconnect 1 Sample.world_mixed)) = [("A", 0); ("C", 2)] /\
  fst (disconnect 1 (snd (disconnect 1 Sample.world_mixed))) = Raise KeyError.
Proof.
  repeat split.
Qed.

(** What does hold: on a node that holds a pool instance, is connected and
    is registered under its identifier, [disconnect] succeeds and the
    identifier is gone from the registry; the same call made again raises
    [KeyError]. *)
Lemma disconnect_instance_pool (w : World) (self : addr) :
  _pool (heap w self) = PoolInstance ->
  _websocket (heap w self) <> None ->
  _task (heap w self) <> None ->
  In (_identifier (heap w self)) (dict_keys (_nodes w)) ->
  NoDup (dict_keys (_nodes w)) ->
  exists w',
    disconnect self w = (Ok tt, w') /\
    sget (_nodes w') (_identifier (heap w self)) = None /\
    fst (disconnect self w') = Raise KeyError.
Proof.
  intros Hp Hws Htask Hin Hnd. unfold disconnect.
  destruct (destroy_all_state (dict_values (_players (heap w self))) w)
    as (Hn & Hh & _).
  set (w1 := fold_left _ _ w) in *.
  rewrite Hh.
  destruct (_websocket (heap w self)) as [ws|] eqn:Ews; [|congruence].
  destruct (_task (heap w self)) as [tk|] eqn:Etk; [|congruence].
  destruct (dict_del_present (_nodes w) _ Hin Hnd) as (d' & Hdel & Hgone).
  simpl. rewrite !Nat.eqb_refl. simpl. rewrite Hh, Hp. simpl.
  unfold del_pool_nodes. simpl. rewrite Hn, Hdel. simpl.
  rewrite !Nat.eqb_refl. simpl. rewrite Hh, Etk. simpl.
  eexists. split; [reflexivity|]. simpl. split.
  - apply sget_None_iff, Hgone.
  - rewrite !Nat.eqb_refl. simpl.
    match goal with
    | |- context [fold_left ?f ?l ?w0] =>
        destruct (destroy_all_state l w0) as (Hn2 & Hh2 & _);
        set (w2 := fold_left f l w0) in *
    end.
    rewrite Hh2, Hn2. simpl. rewrite !Nat.eqb_refl. simpl.
    rewrite Hh, Hp. simpl.
    rewrite (dict_del_absent d' _ Hgone). reflexivity.
Qed.
End DisconnectFacts.

(** ** Frame routing *)

Section HandlePayloadFacts.
Import Pool Spec.

(** C9: an [event] frame whose guild id has no player on the node is
    dropped: nothing is raised and the state is the one before; when a
    player is registered under the id, its event entry point is called
    once, with the frame, and nothing else changes. *)
Theorem handle_payload_event_routing (env : Env) (w : World) (self : addr)
    (data : dict string json) (g : json) (guild_id : Z) :
  sget data "op" = Some (JStr "event") ->
  sget data "guildId" = Some g ->
  py_int env g = Ok guild_id ->
  match zget (_players (heap w self)) guild_id with
  | None => _handle_payload env self data w = (Ok tt, w)
  | Some player =>
      exists w',
        _handle_payload env self data w = (Ok tt, w') /\
        log w' = log w ++ [EvDispatchEvent player data] /\
        heap w' = heap w /\ _nodes w' = _nodes w /\ next w' = next w
  end.
Proof.
  intros Hop Hg Hint. unfold _handle_payload, get_or_null.
  rewrite Hop, Hg, Hint. simpl.
  destruct (zget (_players (heap w self)) guild_id) as [player|].
  - eexists. split; [reflexivity|]. simpl. auto.
  - reflexivity.
Qed.

Lemma handle_payload_event_routing_witness :
  _handle_payload Sample.sample_env 1 Sample.frame_unknown_guild
    Sample.world_mixed = (Ok tt, Sample.world_mixed) /\
  exists w',
    _handle_payload Sample.sample_env 1 Sample.frame_known_guild
      Sample.world_mixed = (Ok tt, w') /\
    log w' = [EvDispatchEvent 100 Sample.frame_known_guild].
Proof.
  split.
  - exact (handle_payload_event_routing Sample.sample_env Sample.world_mixed 1
             Sample.frame_unknown_guild (JStr "42") 42%Z
             eq_refl eq_refl eq_refl).
  - destruct (handle_payload_event_routing Sample.sample_env
                Sample.world_mixed 1 Sample.frame_known_guild
                (JNum 10) 10%Z eq_refl eq_refl eq_refl)
      as (w' & Hrun & Hlog & _).
    exists w'. split; [exact Hrun|exact Hlog].
Defined.
End HandlePayloadFacts.

(** ** Classification of a query *)

Section RegexFacts.
Import Regex.

Lemma lit_cons (a : ascii) (p s t : string) :
  lit (String a p) s = Some t ->
  exists s', s = String a s' /\ lit p s' = Some t.
Proof.
  destruct s as [|b s']; simpl; [discriminate|].
  destruct (Ascii.eqb a b) eqn:E; [|discriminate].
  apply Ascii.eqb_eq in E. subst b. eauto.
Qed.

Lemma URL_REGEX_at_search (s : string) :
  URL_REGEX_at s = true -> URL_REGEX_search s = true.
Proof.
  intro H. destruct s as [|c t]; [discriminate H|].
  change (URL_REGEX_search (String c t))
    with (URL_REGEX_at (String c t) || URL_REGEX_search t).
  rewrite H. reflexivity.
Qed.

(** An attachment URL is a URL, and is not a catalog URL. *)
Lemma discord_is_url (q : string) (g : discord_groups) :
  DISCORD_MP3_URL_REGEX_match q = Some g -> URL_REGEX_search q = true.
Proof.
  unfold DISCORD_MP3_URL_REGEX_match. intro H.
  apply URL_REGEX_at_search. unfold URL_REGEX_at.
  cbv beta iota delta [obind] in H.
  destruct (https q) as [r|]; [|discriminate H].
  destruct (lit "cdn" r) as [r1|] eqn:E; [|discriminate H].
  apply lit_cons in E. destruct E as (s' & -> & _). reflexivity.
Qed.

Lemma discord_not_spotify (q : string) (g : discord_groups) :
  DISCORD_MP3_URL_REGEX_match q = Some g -> SPOTIFY_URL_REGEX_match q = None.
Proof.
  unfold DISCORD_MP3_URL_REGEX_match, SPOTIFY_URL_REGEX_match. intro H.
  cbv beta iota delta [obind] in H.
  destruct (https q) as [r|]; [|reflexivity].
  destruct (lit "cdn" r) as [r1|] eqn:E; [|discriminate H].
  apply lit_cons in E. destruct E as (s' & -> & _). reflexivity.
Qed.

(** A catalog URL is a URL. *)
Lemma spotify_is_url (q : string) (g : string * string) :
  SPOTIFY_URL_REGEX_match q = Some g -> URL_REGEX_search q = true.
Proof.
  unfold SPOTIFY_URL_REGEX_match. intro H.
  apply URL_REGEX_at_search. unfold URL_REGEX_at.
  cbv beta iota delta [obind] in H.
  destruct (https q) as [r|]; [|discriminate H].
  destruct (lit "open" r) as [r1|] eqn:E; [|discriminate H].
  apply lit_cons in E. destruct E as (s' & -> & _). reflexivity.
Qed.

(** A URL is resolved as it is. *)
Lemma effective_query_url (q st : string) (local : bool) :
  URL_REGEX_search q = true -> Pool.effective_query q st local = q.
Proof.
  unfold Pool.effective_query. intros ->. reflexivity.
Qed.

Example regex_samples :
  DISCORD_MP3_URL_REGEX_match
    "https://cdn.discordapp.com/attachments/1/2/song.mp3?ex=1"
  = Some {| channel_id := "1"; message_id := "2"; file := "song.mp3" |} /\
  SPOTIFY_URL_REGEX_match "https://open.spotify.com/track/abc12?si=1"
  = Some ("track", "abc12") /\
  URL_REGEX_search "see https://a" = true /\
  URL_REGEX_search "http://" = false /\
  URL_REGEX_search "never gonna give you up" = false.
Proof. repeat split. Qed.
End RegexFacts.

(** ** Track resolution *)

Section GetTracksFacts.
Import Regex Pool Spec.

Variable env : Env.
Variable search : SpotifyClient -> string -> result spotify_result.

Lemma build_tracks_ok (c : Ctx) (st : string) (entries : list json) :
  Forall entry_ok entries ->
  exists ts,
    build_tracks c st entries = Ok ts /\
    Forall2 built_from entries ts /\
    length ts = length entries.
Proof.
  induction 1 as [|e rest He _ IH].
  - exists []. repeat split. constructor.
  - destruct He as (d & tid & inf & -> & Ht & Hi).
    destruct IH as (ts & Hb & Hf & Hlen).
    simpl. rewrite Ht, Hi. simpl. rewrite Hb. simpl.
    eexists. split; [reflexivity|]. split.
    + constructor; [|exact Hf].
      unfold built_from. simpl. rewrite Ht, Hi. split; reflexivity.
    + simpl. rewrite Hlen. reflexivity.
Qed.

(** C3: in the last branch of [get_tracks] (the query, once prefixed, is
    neither a catalog URL nor an attachment URL) the reply of the backend
    decides the outcome: no [loadType] raises [TrackLoadError] tagged
    NO_LOADTYPE; NO_MATCHES raises [TrackLoadError] tagged NO_MATCHES;
    LOAD_FAILED raises [TrackLoadError] whose message is the backend's
    message followed by its severity in brackets; PLAYLIST_LOADED returns a
    playlist with the backend's metadata whose track count is the length of
    the backend's track array; SEARCH_RESULT and TRACK_LOADED return one
    track per backend entry, in order, each built from its entry. *)
Theorem generic_branch_load_types (self : Node) (query : string) (c : Ctx)
    (st : string) (local : bool) :
  SPOTIFY_URL_REGEX_match (effective_query query st local) = None ->
  DISCORD_MP3_URL_REGEX_match (effective_query query st local) = None ->
  let data := generic_response env self query st local in
  let run := get_tracks env search self query c st local in
  (sget data "loadType" = None ->
   run = Raise (TrackLoadError
     "There was an error while trying to load this track. [NO_LOADTYPE]")) /\
  (sget data "loadType" = Some (JStr "NO_MATCHES") ->
   run = Raise (TrackLoadError "No matches found. [NO_MATCHES]")) /\
  (sget data "loadType" = Some (JStr "LOAD_FAILED") ->
   forall exc message severity,
     sget data "exception" = Some (JObj exc) ->
     sget exc "message" = Some message ->
     sget exc "severity" = Some severity ->
     run = Raise (TrackLoadError
             (py_str env message ++ " [" ++ py_str env severity ++ "]")%string)) /\
  (sget data "loadType" = Some (JStr "PLAYLIST_LOADED") ->
   forall pinfo entries,
     sget data "playlistInfo" = Some pinfo ->
     sget data "tracks" = Some (JArr entries) ->
     exists p,
       run = Ok (RPlaylist p) /\
       playlist_info p = pinfo /\
       tracks p = RawTracks (JArr entries) /\
       track_count p = Some (length entries)) /\
  (forall lt,
     lt = "SEARCH_RESULT" \/ lt = "TRACK_LOADED" ->
     sget data "loadType" = Some (JStr lt) ->
     forall entries,
       sget data "tracks" = Some (JArr entries) ->
       Forall entry_ok entries ->
       exists ts,
         run = Ok (RTracks ts) /\
         length ts = length entries /\
         Forall2 built_from entries ts).
Proof.
  intros Hs Hd data run.
  assert (Hrun : run = interpret_load env data c st).
  { unfold run, get_tracks, data, generic_response.
    rewrite Hs, Hd. reflexivity. }
  rewrite Hrun. clear Hrun run. unfold interpret_load, get_or_null.
  repeat split.
  - intros ->. reflexivity.
  - intros ->. reflexivity.
  - intros -> exc message severity He Hm Hv.
    simpl. rewrite He. simpl. rewrite Hm, Hv. reflexivity.
  - intros -> pinfo entries Hp Ht.
    simpl. rewrite Hp, Ht. simpl.
    eexists. split; [reflexivity|]. repeat split.
  - intros lt Hlt -> entries Ht Hok.
    destruct (build_tracks_ok c st entries Hok) as (ts & Hb & Hf & Hlen).
    exists ts.
    destruct Hlt as [-> | ->]; simpl; rewrite Ht; simpl; rewrite Hb;
      auto.
Qed.

(** The first half of C4, which holds: for a query that matches the
    attachment pattern, when the backend returns exactly one track entry
    (a dictionary with its [track] and a dictionary of [info]) the result
    is one track whose title is the file group of the URL and whose source
    name is http. *)
Lemma attachment_single_track (self : Node) (query : string) (c : Ctx)
    (st : string) (local : bool) (g : discord_groups)
    (entry inf : dict string json) (tid : json) :
  DISCORD_MP3_URL_REGEX_match query = Some g ->
  sget (loadtracks env self query) "tracks" = Some (JArr [JObj entry]) ->
  sget entry "track" = Some tid ->
  sget entry "info" = Some (JObj inf) ->
  exists t,
    get_tracks env search self query c st local = Ok (RTracks [t]) /\
    title t = Ok (JStr (file g)) /\
    sourceName t = Ok (JStr "http") /\
    track_id t = tid.
Proof.
  intros Hm Ht Htid Hinf. unfold get_tracks.
  rewrite (effective_query_url query st local (discord_is_url _ _ Hm)).
  rewrite (discord_not_spotify _ _ Hm), Hm.
  simpl. rewrite Ht. simpl. unfold get_or_null. rewrite Hinf, Htid. simpl.
  eexists. split; [reflexivity|]. repeat split.
Qed.

(** The second half of C4 on the code: with no track in the reply the
    subscript [[0]] fails, and what escapes is an [IndexError]. *)
Lemma attachment_no_track (self : Node) (query : string) (c : Ctx)
    (st : string) (local : bool) (g : discord_groups) :
  DISCORD_MP3_URL_REGEX_match query = Some g ->
  sget (loadtracks env self query) "tracks" = Some (JArr []) ->
  get_tracks env search self query c st local = Raise IndexError.
Proof.
  intros Hm Ht. unfold get_tracks.
  rewrite (effective_query_url query st local (discord_is_url _ _ Hm)).
  rewrite (discord_not_spotify _ _ Hm), Hm.
  simpl. rewrite Ht. reflexivity.
Qed.

(** The part of C5 that holds: for a query that matches the catalog
    pattern, a node given neither a client id nor a client secret raises
    [InvalidSpotifyClientAuthorization], whatever the catalog would have
    answered. *)
Lemma spotify_without_credentials (self : Node) (query : string) (c : Ctx)
    (st : string) (local : bool) (g : string * string) :
  SPOTIFY_URL_REGEX_match query = Some g ->
  truthy_str (_spotify_client_id self) = false ->
  truthy_str (_spotify_client_secret self) = false ->
  get_tracks env search self query c st local
  = Raise (InvalidSpotifyClientAuthorization credentials_error).
Proof.
  intros Hm Hid Hsec. unfold get_tracks.
  rewrite (effective_query_url query st local (spotify_is_url _ _ Hm)).
  rewrite Hm, Hid, Hsec. reflexivity.
Qed.

(** A node built by [__init__] with only one of the two credentials has
    no catalog client, and the guard of [get_tracks] lets it through: the
    read of [_spotify_client] fails. *)
Lemma spotify_with_one_credential (pool : pool_ref)
    (host port password identifier : string) (secure : bool)
    (cid csec : option string) (query : string) (c : Ctx) (st : string)
    (local : bool) (g : string * string) :
  SPOTIFY_URL_REGEX_match query = Some g ->
  truthy_str cid = negb (truthy_str csec) ->
  get_tracks env search
    (Node_init pool host port password identifier secure cid csec)
    query c st local
  = Raise AttributeError.
Proof.
  intros Hm Hone. unfold get_tracks.
  rewrite (effective_query_url query st local (spotify_is_url _ _ Hm)).
  rewrite Hm. simpl. rewrite Hone.
  destruct cid as [i|], csec as [s|]; simpl in *;
    try destruct (String.eqb s EmptyString);
    try destruct (String.eqb i EmptyString);
    simpl in *; try discriminate; reflexivity.
Qed.
End GetTracksFacts.

(** C4, at the input where the code departs from it: for an attachment
    URL to which the backend answers with an empty track array,
    [get_tracks] raises [IndexError], not [TrackLoadError]. *)
Theorem attachment_without_tracks_raises_IndexError :
  Regex.DISCORD_MP3_URL_REGEX_match Sample.attachment_url
  = Some {| Regex.channel_id := "1"; Regex.message_id := "2";
            Regex.file := "song.mp3" |} /\
  Pool.loadtracks Sample.silent_env (Sample.node_with "B" (Some true) [])
    Sample.attachment_url
  = [("loadType", JStr "NO_MATCHES"); ("tracks", JArr [])] /\
  forall search c st local,
    Pool.get_tracks Sample.silent_env search
      (Sample.node_with "B" (Some true) []) Sample.attachment_url c st local
    = Raise IndexError.
Proof.
  split; [reflexivity|]. split; [reflexivity|].
  intros search c st local. reflexivity.
Qed.

(** C5, at the input where the code departs from it: a node given a
    client id and no client secret holds no catalog client, yet for a
    catalog URL [get_tracks] raises [AttributeError], not
    [InvalidSpotifyClientAuthorization]. *)
Theorem catalog_url_with_client_id_only_raises_AttributeError :
  Regex.SPOTIFY_URL_REGEX_match Sample.catalog_url
  = Some ("track", "4uLU6hMCjMI75M1A2tKUQC") /\
  Pool._spotify_client Sample.half_configured = None /\
  forall env search c st local,
    Pool.get_tracks env search Sample.half_configured Sample.catalog_url
      c st local
    = Raise AttributeError.
Proof.
  split; [reflexivity|]. split; [reflexivity|].
  intros env search c st local. reflexivity.
Qed.

Lemma sample_entry_ok (id : string) : Spec.entry_ok (Sample.sample_entry id).
Proof.
  exists [("track", JStr id); ("info", JObj [("title", JStr id)])],
         (JStr id), (JObj [("title", JStr id)]).
  repeat split.
Defined.

Lemma generic_branch_load_types_witness :
  let resolve q :=
    Pool.get_tracks Sample.sample_env Sample.no_catalog
      (Sample.node_with "B" (Some true) []) q None "ytsearch" false in
  resolve "silence"
  = Raise (TrackLoadError
      "There was an error while trying to load this track. [NO_LOADTYPE]") /\
  resolve "nothing" = Raise (TrackLoadError "No matches found. [NO_MATCHES]") /\
  resolve "broken" = Raise (TrackLoadError "Video unavailable [COMMON]") /\
  (exists p, resolve "mix" = Ok (Pool.RPlaylist p) /\
             Pool.track_count p = Some 2) /\
  (exists ts, resolve "song" = Ok (Pool.RTracks ts) /\ length ts = 3).
Proof.
  intro resolve.
  pose (thm q :=
    generic_branch_load_types Sample.sample_env Sample.no_catalog
      (Sample.node_with "B" (Some true) []) q None "ytsearch" false).
  split; [|split; [|split; [|split]]].
  - exact (proj1 (thm "silence" eq_refl eq_refl) eq_refl).
  - exact (proj1 (proj2 (thm "nothing" eq_refl eq_refl)) eq_refl).
  - exact (proj1 (proj2 (proj2 (thm "broken" eq_refl eq_refl))) eq_refl
             [("message", JStr "Video unavailable");
              ("severity", JStr "COMMON")]
             (JStr "Video unavailable") (JStr "COMMON")
             eq_refl eq_refl eq_refl).
  - destruct (proj1 (proj2 (proj2 (proj2 (thm "mix" eq_refl eq_refl)))) eq_refl
                (JObj [("name", JStr "mix"); ("selectedTrack", JNum 0)])
                [Sample.sample_entry "t1"; Sample.sample_entry "t2"]
                eq_refl eq_refl)
      as (p & Hrun & _ & _ & Hcount).
    exists p. split; [exact Hrun|exact Hcount].
  - destruct (proj2 (proj2 (proj2 (proj2 (thm "song" eq_refl eq_refl)))) "SEARCH_RESULT"
                (or_introl eq_refl) eq_refl
                [Sample.sample_entry "t1"; Sample.sample_entry "t2";
                 Sample.sample_entry "t3"]
                eq_refl
                (Forall_cons _ (sample_entry_ok "t1")
                   (Forall_cons _ (sample_entry_ok "t2")
                      (Forall_cons _ (sample_entry_ok "t3")
                         (Forall_nil _)))))
      as (ts & Hrun & Hlen & _).
    exists ts. split; [exact Hrun|exact Hlen].
Defined.

(* ================================================================== *)
(** * Further properties of the code *)
(* ================================================================== *)

(** ** The equalizer *)

Section EqualizerFacts.
Import Equalizer.

Lemma zget_dict_set_same {V : Type} (d : dict Z V) (k : Z) (v : V) :
  zget (dict_set Z.eqb d k v) k = Some v.
Proof.
  unfold zget. induction d as [|[k' v'] t IH]; simpl.
  - rewrite Z.eqb_refl. reflexivity.
  - destruct (Z.eqb k' k) eqn:E; simpl; rewrite E; [reflexivity|exact IH].
Qed.

Lemma zget_dict_set_other {V : Type} (d : dict Z V) (k i : Z) (v : V) :
  i <> k -> zget (dict_set Z.eqb d k v) i = zget d i.
Proof.
  unfold zget. intro Hne. induction d as [|[k' v'] t IH]; simpl.
  - destruct (Z.eqb k i) eqn:E; [|reflexivity].
    apply Z.eqb_eq in E. congruence.
  - destruct (Z.eqb k' k) eqn:E; simpl.
    + apply Z.eqb_eq in E. subst k'.
      destruct (Z.eqb k i) eqn:E'; [|reflexivity].
      apply Z.eqb_eq in E'. congruence.
    + destruct (Z.eqb k' i); [reflexivity|exact IH].
Qed.

Lemma find_app_split {A : Type} (p : A -> bool) (l1 l2 : list A) :
  find p (l1 ++ l2)
  = match find p l1 with Some x => Some x | None => find p l2 end.
Proof.
  induction l1 as [|x t IH]; simpl; [reflexivity|].
  destruct (p x); [reflexivity|exact IH].
Qed.

Lemma last_gain_cons (lv : Z * Q) (levels : levels_t) (i : Z) :
  last_gain (lv :: levels) i
  = match last_gain levels i with
    | Some g => Some g
    | None => if Z.eqb (fst lv) i then Some (snd lv) else None
    end.
Proof.
  unfold last_gain. simpl. rewrite find_app_split.
  destruct (find _ (rev levels)); simpl; [reflexivity|].
  destruct (Z.eqb (fst lv) i); reflexivity.
Qed.

Lemma zget_fold_levels (levels : levels_t) (d : dict Z Q) (i : Z) :
  zget (fold_left (fun d lv => dict_set Z.eqb d (fst lv) (snd lv)) levels d) i
  = match last_gain levels i with
    | Some g => Some g
    | None => zget d i
    end.
Proof.
  revert d. induction levels as [|lv t IH]; intro d; [reflexivity|].
  simpl fold_left. rewrite IH, last_gain_cons.
  destruct (last_gain t i); [reflexivity|].
  destruct (Z.eqb (fst lv) i) eqn:E.
  - apply Z.eqb_eq in E. subst i. apply zget_dict_set_same.
  - apply Z.eqb_neq in E. apply zget_dict_set_other. congruence.
Qed.

Lemma default_get_update (levels : levels_t) (i : Z) :
  default_get (update levels) i
  = match last_gain levels i with Some g => g | None => 0%Q end.
Proof.
  unfold default_get, update. rewrite zget_fold_levels.
  destruct (last_gain levels i); reflexivity.
Qed.

Lemma range15_bounds (i : Z) : In i range15 <-> (0 <= i <= 14)%Z.
Proof.
  unfold range15. rewrite in_map_iff. split.
  - intros (n & <- & Hn). apply in_seq in Hn. lia.
  - intro H. exists (Z.to_nat i). split; [lia|]. apply in_seq. lia.
Qed.

(** Whatever the levels, [_factory] yields fifteen entries, entry [i]
    being band [i]; its gain is the one of the last pair given for band
    [i], and 0 when no pair names the band. *)
Theorem factory_bands_and_gains (levels : levels_t) :
  length (_factory levels) = 15 /\
  forall i, (0 <= i <= 14)%Z ->
    nth (Z.to_nat i) (_factory levels) JNull
    = band_entry i
        (match last_gain levels i with Some g => g | None => 0%Q end).
Proof.
  split; [reflexivity|].
  intros i Hi. unfold _factory.
  assert (Hcases : In i range15) by (apply range15_bounds, Hi).
  rewrite (map_ext _ (fun i => band_entry i
            (match last_gain levels i with Some g => g | None => 0%Q end)))
    by (intro j; rewrite default_get_update; reflexivity).
  simpl in Hcases.
  repeat (destruct Hcases as [<-|Hcases]; [reflexivity|]).
  contradiction.
Qed.

(** A pair for a band outside 0..14 is dropped without a trace. *)
Theorem factory_ignores_other_bands (l1 l2 : levels_t) (b : Z) (g : Q) :
  (b < 0 \/ 14 < b)%Z ->
  _factory (l1 ++ (b, g) :: l2) = _factory (l1 ++ l2).
Proof.
  intro Hb. unfold _factory. apply map_ext_in. intros i Hi.
  apply range15_bounds in Hi. f_equal.
  rewrite !default_get_update.
  unfold last_gain. rewrite !rev_app_distr. simpl.
  rewrite <- app_assoc. rewrite !find_app_split. simpl.
  destruct (Z.eqb b i) eqn:E; [|reflexivity].
  apply Z.eqb_eq in E. lia.
Qed.

Lemma factory_ignores_other_bands_witness :
  _factory [(0%Z, 1 # 2); (15%Z, 1); (3%Z, 1 # 4)]%Q
  = _factory [(0%Z, 1 # 2); (3%Z, 1 # 4)]%Q.
Proof.
  apply (factory_ignores_other_bands [(0%Z, (1 # 2)%Q)] [(3%Z, (1 # 4)%Q)]
           15%Z 1%Q).
  right. lia.
Defined.

(** The flat preset is fifteen bands of gain 0; the piano preset lists
    fourteen levels and its last band reads as 0. *)
Example presets :
  eq flat = map (fun i => band_entry i 0%Q) range15 /\
  nth 14 (eq piano) JNull = band_entry 14 0%Q.
Proof. split; reflexivity. Qed.
End EqualizerFacts.

(** ** Validation of the oscillating filters *)

Section OscillatorFacts.
Import Filters.


End OscillatorFacts.

(** ** Registration and selection together *)

Section RegistryFacts.
Import Pool Spec NodeMore.

Variables (host port password identifier : string) (secure : bool).
Variables (spotify_client_id spotify_client_secret : option string).

Local Abbreviation create' o :=
  (create_node host port password identifier secure
     spotify_client_id spotify_client_secret o).

Local Abbreviation fresh_node :=
  (Node_init PoolClass host port password identifier secure
     spotify_client_id spotify_client_secret).

(** The state after a registration that went through. *)
Lemma create_node_opened (w : World) :
  ~ In identifier (dict_keys (_nodes w)) ->
  exists w',
    create' WsOpened w = (Ok (next w), w') /\
    _nodes w' = _nodes w ++ [(identifier, next w)] /\
    next w' = S (next w) /\
    (forall b, b <> next w -> heap w' b = heap w b) /\
    heap w' (next w)
    = set__available (Some true)
        (set_task (Some {| cancelled := false |})
           (set_websocket (Some {| closed := false |}) fresh_node)) /\
    log w' = log w ++ [EvAddListener (next w);
                       EvWsConnect (next w) (_websocket_uri fresh_node);
                       EvCreateTask (next w);
                       EvSend (next w) configureResuming].
Proof.
  intro Hid. unfold create_node.
  rewrite (proj2 (dict_contains_false (_nodes w) identifier) Hid).
  unfold new_Node, connect, send. simpl.
  rewrite !Nat.eqb_refl. simpl.
  eexists. split; [reflexivity|]. simpl.
  rewrite !Nat.eqb_refl. simpl.
  rewrite dict_set_fresh by exact Hid.
  split; [reflexivity|]. split; [reflexivity|]. split.
  - intros b Hb. apply Nat.eqb_neq in Hb. rewrite !Hb. reflexivity.
  - split; [reflexivity|].
    rewrite <- !app_assoc. reflexivity.
Qed.

(** The state after a registration whose connection failed. *)
Lemma create_node_failed (w : World) (cause : ws_error) :
  ~ In identifier (dict_keys (_nodes w)) ->
  exists e w',
    create' (WsFailed cause) w = (Raise e, w') /\
    _nodes w' = _nodes w /\
    next w' = S (next w) /\
    (forall b, b <> next w -> heap w' b = heap w b) /\
    heap w' (next w) = fresh_node /\
    log w' = log w ++ [EvAddListener (next w)].
Proof.
  intro Hid. unfold create_node.
  rewrite (proj2 (dict_contains_false (_nodes w) identifier) Hid).
  unfold new_Node, connect.
  destruct cause; simpl; do 2 eexists; (split; [reflexivity|]); simpl;
    rewrite ?Nat.eqb_refl; repeat split;
    intros b Hb; apply Nat.eqb_neq in Hb; rewrite Hb; reflexivity.
Qed.

Lemma sget_filter_app_fresh {V : Type} (f : string * V -> bool)
    (d : dict string V) (k : string) (v : V) :
  ~ In k (dict_keys d) ->
  sget (filter f (d ++ [(k, v)])) k = if f (k, v) then Some v else None.
Proof.
  unfold sget. induction d as [|[k' v'] t IH]; simpl; intro H.
  - destruct (f (k, v)); simpl; [rewrite String.eqb_refl|]; reflexivity.
  - destruct (f (k', v')); simpl.
    + destruct (String.eqb k' k) eqn:E.
      * apply String.eqb_eq in E. tauto.
      * apply IH. tauto.
    + apply IH. tauto.
Qed.

(** With some node available, the selection without identifier returns a
    node. *)
Lemma get_node_some (w : World) :
  available_nodes w <> [] -> exists n, get_node None w = Ok (Some n).
Proof.
  intro H. unfold get_node.
  destruct (available_nodes w) as [|b t] eqn:E; [congruence|].
  destruct (sorted_head (fun n => length (_players (heap w n)))
              (dict_values (b :: t)))
    as (n & rest & _ & _ & Hs & _); [discriminate|].
  rewrite Hs. eauto.
Qed.

(** A node registered under a fresh identifier is found again by that
    identifier, and from then on the selection without identifier returns
    a node. *)
Theorem create_then_get_node (w : World) :
  ~ In identifier (dict_keys (_nodes w)) ->
  get_node (Some identifier) (snd (create' WsOpened w)) = Ok (Some (next w)) /\
  exists n, get_node None (snd (create' WsOpened w)) = Ok (Some n).
Proof.
  intro Hid.
  destruct (create_node_opened w Hid) as (w' & -> & Hn & _ & _ & Hnode & _).
  simpl.
  assert (Hfound : sget (available_nodes w') identifier = Some (next w)).
  { unfold available_nodes. rewrite Hn.
    rewrite sget_filter_app_fresh by exact Hid.
    rewrite Hnode. reflexivity. }
  split.
  - apply get_node_by_identifier_found, Hfound.
  - apply get_node_some. intro Hnil. rewrite Hnil in Hfound.
    discriminate Hfound.
Qed.

(** Registering the same identifier a second time fails with
    [NodeCreationError], whatever the other arguments and the network, and
    changes nothing. *)
Theorem create_node_twice (w : World) (host2 port2 password2 : string)
    (secure2 : bool) (id2 secret2 : option string) (o2 : ws_outcome) :
  ~ In identifier (dict_keys (_nodes w)) ->
  let w1 := snd (create' WsOpened w) in
  create_node host2 port2 password2 identifier secure2 id2 secret2 o2 w1
  = (Raise (NodeCreationError
              ("A node with identifier '" ++ identifier
                 ++ "' already exists.")%string), w1).
Proof.
  intro Hid.
  destruct (create_node_opened w Hid) as (w' & -> & Hn & _).
  simpl. unfold create_node.
  destruct (dict_contains String.eqb (_nodes w') identifier) eqn:E;
    [reflexivity|].
  apply dict_contains_false in E. exfalso. apply E.
  rewrite Hn. unfold dict_keys. rewrite map_app. apply in_or_app.
  right. left. reflexivity.
Qed.

(** [create_node] keeps the registry well formed, whatever its outcome:
    identifiers stay pairwise distinct and registered addresses allocated;
    every earlier registration is still there and its node is as it was. *)
Theorem create_node_keeps_registry (w : World) (o : ws_outcome) :
  registry_ok w ->
  registry_ok (snd (create' o w)) /\
  forall i a, In (i, a) (_nodes w) ->
    In (i, a) (_nodes (snd (create' o w))) /\
    heap (snd (create' o w)) a = heap w a.
Proof.
  intros [Hnd Hlt].
  destruct (dict_contains String.eqb (_nodes w) identifier) eqn:Edup.
  - unfold create_node. rewrite Edup. simpl.
    split; [split; assumption|]. auto.
  - apply dict_contains_false in Edup.
    destruct o as [|cause].
    + destruct (create_node_opened w Edup)
        as (w' & -> & Hn & Hnext & Hframe & _).
      simpl. split; [split|].
      * rewrite Hn. unfold dict_keys. rewrite map_app. simpl.
        apply NoDup_app_remove_l with (l := []). simpl.
        apply Permutation_NoDup with (l := identifier :: map fst (_nodes w)).
        -- apply Permutation_cons_append.
        -- constructor; assumption.
      * intros i a Hin. rewrite Hn in Hin. rewrite Hnext.
        apply in_app_or in Hin. destruct Hin as [Hin|[Heq|[]]].
        -- specialize (Hlt i a Hin). lia.
        -- inversion Heq. lia.
      * intros i a Hin. split.
        -- rewrite Hn. apply in_or_app. left. exact Hin.
        -- apply Hframe. specialize (Hlt i a Hin). lia.
    + destruct (create_node_failed w cause Edup)
        as (e & w' & -> & Hn & Hnext & Hframe & _).
      simpl. split; [split|].
      * rewrite Hn. exact Hnd.
      * intros i a Hin. rewrite Hn in Hin. rewrite Hnext.
        specialize (Hlt i a Hin). lia.
      * intros i a Hin. split.
        -- rewrite Hn. exact Hin.
        -- apply Hframe. specialize (Hlt i a Hin). lia.
Qed.

(** A node whose connection failed is left unregistered and cannot send:
    the guard of [send] fires, and what it raises is the [AttributeError]
    of its own message. *)
Theorem send_after_failed_connect (w : World) (cause : ws_error)
    (msg : json) :
  ~ In identifier (dict_keys (_nodes w)) ->
  let w1 := snd (create' (WsFailed cause) w) in
  sget (_nodes w1) identifier = None /\
  send (next w) msg w1 = (Raise AttributeError, w1).
Proof.
  intro Hid.
  destruct (create_node_failed w cause Hid)
    as (e & w' & -> & Hn & _ & _ & Hnode & _).
  simpl. split.
  - rewrite Hn. apply sget_None_iff, Hid.
  - unfold send. rewrite Hnode. reflexivity.
Qed.
End RegistryFacts.

Lemma create_then_get_node_witness :
  Pool.get_node (Some "D")
    (snd (Pool.create_node "h" "1" "pw" "D" false None None Pool.WsOpened
            Sample.world_mixed))
  = Ok (Some 3).
Proof.
  apply (create_then_get_node "h" "1" "pw" "D" false None None
           Sample.world_mixed).
  simpl. intros [H|[H|[H|[]]]]; discriminate H.
Defined.

Lemma create_node_twice_witness :
  fst (Pool.create_node "other" "2" "pw2" "D" true None None
         (Pool.WsFailed Pool.gaierror)
         (snd (Pool.create_node "h" "1" "pw" "D" false None None
                 Pool.WsOpened Sample.world_mixed)))
  = Raise (NodeCreationError "A node with identifier 'D' already exists.").
Proof.
  rewrite (create_node_twice "h" "1" "pw" "D" false None None
             Sample.world_mixed "other" "2" "pw2" true None None
             (Pool.WsFailed Pool.gaierror)).
  - reflexivity.
  - simpl. intros [H|[H|[H|[]]]]; discriminate H.
Defined.

Lemma registry_ok_world_mixed : NodeMore.registry_ok Sample.world_mixed.
Proof.
  split.
  - simpl. repeat constructor; simpl; intuition discriminate.
  - intros i a Hin. simpl in Hin. simpl.
    destruct Hin as [H|[H|[H|[]]]]; inversion H; lia.
Defined.

Lemma create_node_keeps_registry_witness :
  NodeMore.registry_ok
    (snd (Pool.create_node "h" "1" "pw" "D" false None None Pool.WsOpened
            Sample.world_mixed)).
Proof.
  exact (proj1 (create_node_keeps_registry "h" "1" "pw" "D" false None None
                  Sample.world_mixed Pool.WsOpened registry_ok_world_mixed)).
Defined.

Lemma send_after_failed_connect_witness :
  fst (Pool.send 3 Pool.configureResuming
         (snd (Pool.create_node "h" "1" "pw" "D" false None None
                 (Pool.WsFailed Pool.InvalidURL) Sample.world_mixed)))
  = Raise AttributeError.
Proof.
  assert (Hfresh : ~ In "D" (dict_keys (Pool._nodes Sample.world_mixed))).
  { simpl. intros [H|[H|[H|[]]]]; discriminate H. }
  exact (f_equal fst
           (proj2 (send_after_failed_connect "h" "1" "pw" "D" false None None
                     Sample.world_mixed Pool.InvalidURL
                     Pool.configureResuming Hfresh))).
Defined.

(** ** Connection, sending and disconnection *)

Section ConnectionFacts.
Import Pool Spec NodeMore.

(** Once [connect] has gone through, on a new node or on one that
    reconnects, the node is connected and any message can be sent: it is
    written to the socket once and nothing else changes. *)
Theorem connect_enables_send (w : World) (self : addr) (msg : json) :
  let w1 := snd (connect self WsOpened w) in
  fst (connect self WsOpened w) = Ok self /\
  is_connected (heap w1 self) = true /\
  exists w2,
    send self msg w1 = (Ok tt, w2) /\
    log w2 = log w1 ++ [EvSend self msg] /\
    heap w2 = heap w1 /\ _nodes w2 = _nodes w.
Proof.
  intro w1.
  assert (Hnode : heap w1 self
                  = set__available (Some true)
                      (set_task (Some {| cancelled := false |})
                         (set_websocket (Some {| closed := false |})
                            (heap w self)))).
  { unfold w1, connect, send. simpl. rewrite !Nat.eqb_refl. simpl.
    rewrite !Nat.eqb_refl. reflexivity. }
  assert (Hreg : _nodes w1 = _nodes w) by apply connect_keeps_registry.
  split.
  - unfold connect, send. simpl. rewrite !Nat.eqb_refl. reflexivity.
  - split.
    + unfold is_connected. rewrite Hnode. reflexivity.
    + unfold send. rewrite Hnode. simpl.
      eexists. split; [reflexivity|]. simpl. repeat split. exact Hreg.
Qed.

(** [disconnect] first destroys every player of the node, once each and
    in the order of the dictionary.  On a node that never had a socket it
    then raises [AttributeError], the registry being as before; otherwise
    the socket is closed next, and it is closed whatever happens at the
    removal from the pool. *)
Theorem disconnect_destroys_players_first (w : World) (self : addr) :
  let destroyed := map EvDestroy (dict_values (_players (heap w self))) in
  let w1 := snd (disconnect self w) in
  match _websocket (heap w self) with
  | None =>
      fst (disconnect self w) = Raise AttributeError /\
      log w1 = log w ++ destroyed /\
      _nodes w1 = _nodes w
  | Some _ =>
      (exists tail, log w1 = log w ++ destroyed ++ EvWsClose self :: tail) /\
      is_connected (heap w1 self) = false
  end.
Proof.
  unfold disconnect.
  destruct (destroy_all_state (dict_values (_players (heap w self))) w)
    as (Hn & Hh & Hl).
  set (w0 := fold_left _ _ w) in *.
  rewrite Hh.
  destruct (_websocket (heap w self)) as [ws|] eqn:Ews.
  - simpl. rewrite !Nat.eqb_refl. simpl. rewrite Hh.
    unfold del_pool_nodes.
    destruct (_pool (heap w self)); simpl.
    + rewrite Hl, Nat.eqb_refl. split.
      * exists []. rewrite <- app_assoc. reflexivity.
      * reflexivity.
    + destruct (dict_del String.eqb (_nodes w0) (_identifier (heap w self)));
        simpl; rewrite ?Nat.eqb_refl; simpl.
      * rewrite Hh. destruct (_task (heap w self)); simpl;
          rewrite ?Nat.eqb_refl, Hl; simpl; (split; [|reflexivity]).
        -- exists [EvTaskCancel self]. rewrite <- !app_assoc. reflexivity.
        -- exists []. rewrite <- !app_assoc. reflexivity.
      * rewrite Hl. split; [|reflexivity].
        exists []. rewrite <- app_assoc. reflexivity.
  - simpl. auto.
Qed.
End ConnectionFacts.

Lemma disconnect_class_pool_witness :
  exists e w',
    Pool.disconnect 0 Sample.world_main = (Raise e, w') /\
    (e = TypeError \/ e = AttributeError) /\
    Pool._nodes w' = Pool._nodes Sample.world_main.
Proof.
  exact (disconnect_class_pool Sample.world_main 0 eq_refl).
Defined.

Lemma disconnect_instance_pool_witness :
  exists w',
    Pool.disconnect 1 Sample.world_mixed = (Ok tt, w') /\
    sget (Pool._nodes w') "B" = None /\
    fst (Pool.disconnect 1 w') = Raise KeyError.
Proof.
  apply (disconnect_instance_pool Sample.world_mixed 1).
  - reflexivity.
  - simpl. discriminate.
  - simpl. discriminate.
  - simpl. tauto.
  - simpl. repeat constructor; simpl; intuition discriminate.
Defined.

(** ** Frames and gateway payloads *)

Section FrameFacts.
Import Pool Spec NodeMore.

Variable env : Env.

(** A [stats] frame needs no guild id: the frame becomes the node's
    snapshot, no player is called and no other node changes. *)
Theorem handle_payload_stats (w : World) (self : addr)
    (data : dict string json) :
  sget data "op" = Some (JStr "stats") ->
  exists w',
    _handle_payload env self data w = (Ok tt, w') /\
    _stats (heap w' self) = Some data /\
    _players (heap w' self) = _players (heap w self) /\
    log w' = log w /\ _nodes w' = _nodes w /\
    forall b, b <> self -> heap w' b = heap w b.
Proof.
  intro Hop. unfold _handle_payload, get_or_null. rewrite Hop. simpl.
  eexists. split; [reflexivity|]. simpl. rewrite Nat.eqb_refl.
  repeat split.
  intros b Hb. apply Nat.eqb_neq in Hb. rewrite Hb. reflexivity.
Qed.

(** A [playerUpdate] frame goes to the state entry point of the player of
    its guild, once, and is dropped when the guild has none. *)
Theorem handle_payload_player_update (w : World) (self : addr)
    (data : dict string json) (g : json) (guild_id : Z) :
  sget data "op" = Some (JStr "playerUpdate") ->
  sget data "guildId" = Some g ->
  py_int env g = Ok guild_id ->
  match get_player (heap w self) guild_id with
  | None => _handle_payload env self data w = (Ok tt, w)
  | Some player =>
      exists w',
        _handle_payload env self data w = (Ok tt, w') /\
        log w' = log w ++ [EvUpdateState player data] /\
        heap w' = heap w /\ _nodes w' = _nodes w
  end.
Proof.
  intros Hop Hg Hint. unfold _handle_payload, get_or_null, get_player.
  rewrite Hop, Hg, Hint. simpl.
  destruct (zget (_players (heap w self)) guild_id) as [player|].
  - eexists. split; [reflexivity|]. simpl. auto.
  - reflexivity.
Qed.

(** A frame whose [op] is set and is not [stats] must carry a guild id
    that [int] accepts: without the key the handler raises [KeyError],
    and the error of [int] escapes as it is; the state is untouched. *)
Theorem handle_payload_needs_guild (w : World) (self : addr)
    (data : dict string json) (op : json) :
  sget data "op" = Some op ->
  truthy op = true ->
  eq_str op "stats" = false ->
  (sget data "guildId" = None ->
   _handle_payload env self data w = (Raise KeyError, w)) /\
  (forall g e, sget data "guildId" = Some g -> py_int env g = Raise e ->
   _handle_payload env self data w = (Raise e, w)).
Proof.
  intros Hop Ht Hs. unfold _handle_payload, get_or_null.
  rewrite Hop, Ht, Hs. simpl. split.
  - intros ->. reflexivity.
  - intros g e -> ->. reflexivity.
Qed.

(** What no frame changes: the registry, and the players, the
    availability and the socket of every node; at most one call is
    logged. *)
Lemma handle_payload_frame (w : World) (self : addr)
    (data : dict string json) :
  let w' := snd (_handle_payload env self data w) in
  _nodes w' = _nodes w /\
  (forall b, _players (heap w' b) = _players (heap w b) /\
             _available (heap w' b) = _available (heap w b) /\
             _websocket (heap w' b) = _websocket (heap w b)) /\
  (log w' = log w \/ exists e, log w' = log w ++ [e]).
Proof.
  unfold _handle_payload.
  destruct (negb (truthy (get_or_null data "op")));
    [|destruct (eq_str (get_or_null data "op") "stats");
      [|destruct (sget data "guildId") as [g|];
        [destruct (py_int env g) as [guild_id|e];
         [destruct (zget (_players (heap w self)) guild_id) as [player|];
          [destruct (eq_str (get_or_null data "op") "event");
           [|destruct (eq_str (get_or_null data "op") "playerUpdate")]|]|]|]]].
  all: simpl; (split; [reflexivity|]).
  all: split;
    [ intro b;
      try (destruct (Nat.eqb b self) eqn:E;
           [apply Nat.eqb_eq in E; subst b|]);
      repeat split
    | first [left; reflexivity | right; eexists; reflexivity] ].
Qed.
End FrameFacts.

Section SelectionFacts.
Import Pool Spec NodeMore.

Lemma sorted_ext {A : Type} (k1 k2 : A -> nat) (l : list A) :
  (forall a, k1 a = k2 a) -> sorted k1 l = sorted k2 l.
Proof.
  intro H. induction l as [|x t IH]; simpl; [reflexivity|].
  rewrite IH. generalize (sorted k2 t). intro s.
  induction s as [|y s IHs]; simpl; [reflexivity|].
  rewrite !H, IHs. reflexivity.
Qed.

(** The selection reads the registry and, of each node, its flag and its
    players, and nothing else. *)
Lemma get_node_ext (w1 w2 : World) (x : option string) :
  _nodes w1 = _nodes w2 ->
  (forall b, _available (heap w1 b) = _available (heap w2 b)) ->
  (forall b, _players (heap w1 b) = _players (heap w2 b)) ->
  get_node x w1 = get_node x w2.
Proof.
  intros Hn Ha Hp. unfold get_node.
  assert (Hav : available_nodes w1 = available_nodes w2).
  { unfold available_nodes. rewrite Hn. apply filter_ext.
    intros [i a]. rewrite Ha. reflexivity. }
  rewrite Hav.
  rewrite (sorted_ext (fun n => length (_players (heap w1 n)))
             (fun n => length (_players (heap w2 n))))
    by (intro a; rewrite Hp; reflexivity).
  reflexivity.
Qed.

(** Handling a frame, whatever it holds and whether or not it raises,
    never changes which node the pool selects. *)
Theorem handle_payload_keeps_selection (env : Env) (w : World)
    (self : addr) (data : dict string json) (x : option string) :
  get_node x (snd (_handle_payload env self data w)) = get_node x w.
Proof.
  destruct (handle_payload_frame env w self data) as (Hn & Hb & _).
  apply get_node_ext; [exact Hn| |]; intro b; apply Hb.
Qed.

Lemma sget_filter_found {V : Type} (f : string * V -> bool)
    (d : dict string V) (k : string) (v : V) :
  NoDup (dict_keys d) -> In (k, v) d -> f (k, v) = true ->
  sget (filter f d) k = Some v.
Proof.
  unfold sget. induction d as [|[k' v'] t IH]; simpl; intros Hnd Hin Hf;
    [contradiction|].
  inversion Hnd as [|? ? Hnotin Hnd']; subst.
  destruct Hin as [Heq|Hin].
  - inversion Heq; subst. rewrite Hf. simpl. rewrite String.eqb_refl.
    reflexivity.
  - assert (Hne : k' <> k).
    { intro. subst k'. apply Hnotin.
      change k with (fst (k, v)). apply in_map, Hin. }
    apply String.eqb_neq in Hne.
    destruct (f (k', v')); simpl; [rewrite Hne|]; apply IH; assumption.
Qed.

(** A registered node that is available is returned when asked for by its
    identifier. *)
Theorem get_node_by_identifier_available (w : World) (x : string)
    (a : addr) :
  NoDup (dict_keys (_nodes w)) ->
  In (x, a) (_nodes w) ->
  truthy_flag (_available (heap w a)) = true ->
  get_node (Some x) w = Ok (Some a).
Proof.
  intros Hnd Hin Hav. apply get_node_by_identifier_found.
  unfold available_nodes.
  apply (sget_filter_found
           (fun '(_, node) => truthy_flag (_available (heap w node))));
    assumption.
Qed.
End SelectionFacts.

Lemma handle_payload_stats_witness :
  exists w',
    Pool._handle_payload Sample.sample_env 1 Sample2.stats_frame
      Sample.world_mixed = (Ok tt, w') /\
    Pool._stats (Pool.heap w' 1) = Some Sample2.stats_frame.
Proof.
  destruct (handle_payload_stats Sample.sample_env Sample.world_mixed 1
              Sample2.stats_frame eq_refl) as (w' & Hrun & Hstats & _).
  exists w'. split; [exact Hrun|exact Hstats].
Defined.

Lemma handle_payload_player_update_witness :
  exists w',
    Pool._handle_payload Sample.sample_env 1 Sample2.player_update_frame
      Sample.world_mixed = (Ok tt, w') /\
    Pool.log w' = [Pool.EvUpdateState 100 Sample2.player_update_frame].
Proof.
  destruct (handle_payload_player_update Sample.sample_env Sample.world_mixed
              1 Sample2.player_update_frame (JNum 10) 10%Z
              eq_refl eq_refl eq_refl) as (w' & Hrun & Hlog & _).
  exists w'. split; [exact Hrun|exact Hlog].
Defined.

Lemma handle_payload_needs_guild_witness :
  Pool._handle_payload Sample.sample_env 1 [("op", JStr "event")]
    Sample.world_mixed = (Raise KeyError, Sample.world_mixed) /\
  fst (Pool._handle_payload Sample.sample_env 1
         [("op", JStr "event"); ("guildId", JStr "abc")] Sample.world_mixed)
  = Raise (ValueError "invalid literal for int()").
Proof.
  split.
  - exact (proj1 (handle_payload_needs_guild Sample.sample_env
                    Sample.world_mixed 1 [("op", JStr "event")] (JStr "event")
                    eq_refl eq_refl eq_refl) eq_refl).
  - rewrite (proj2 (handle_payload_needs_guild Sample.sample_env
                      Sample.world_mixed 1
                      [("op", JStr "event"); ("guildId", JStr "abc")]
                      (JStr "event") eq_refl eq_refl eq_refl)
               (JStr "abc") (ValueError "invalid literal for int()")
               eq_refl eq_refl).
    reflexivity.
Defined.

Lemma get_node_by_identifier_available_witness :
  Pool.get_node (Some "C") Sample.world_mixed = Ok (Some 2).
Proof.
  apply get_node_by_identifier_available.
  - simpl. repeat constructor; simpl; intuition discriminate.
  - simpl. tauto.
  - reflexivity.
Defined.

(** ** Voice updates from the gateway *)

Section UpdateHandlerFacts.
Import Pool NodeMore.

Variables (env : Env) (bot_user_id : Z) (self : Node).

Lemma subscript_obj (data : dict string json) (k : string) (v : json) :
  sget data k = Some v -> subscript (JObj data) k = Ok v.
Proof.
  intro H. unfold subscript. rewrite H. reflexivity.
Qed.

(** A voice server update is handed, with its [d] part, to the player of
    its guild; when the guild has no player on the node it is dropped and
    nothing is raised. *)
Theorem update_handler_voice_server (data : dict string json)
    (d g : json) (guild_id : Z) :
  sget data "t" = Some (JStr "VOICE_SERVER_UPDATE") ->
  sget data "d" = Some d ->
  subscript d "guild_id" = Ok g ->
  py_int env g = Ok guild_id ->
  _update_handler env bot_user_id self data
  = Ok (match get_player self guild_id with
        | Some player => Some (on_voice_server_update player d)
        | None => None
        end).
Proof.
  intros Ht Hd Hg Hint. unfold _update_handler, int_field, get_player.
  destruct data as [|kv rest] eqn:Edata; [discriminate Ht|].
  cbv iota. rewrite <- Edata in *. clear Edata.
  rewrite (subscript_obj data "t" _ Ht). cbn [bind].
  change (eq_str (JStr "VOICE_SERVER_UPDATE") "VOICE_SERVER_UPDATE")
    with true. cbv iota.
  rewrite !(subscript_obj data "d" _ Hd). cbn [bind].
  rewrite Hg. cbn [bind]. rewrite Hint. cbn [bind].
  destruct (zget (_players self) guild_id); reflexivity.
Qed.

(** A voice state update about another user than the bot is ignored
    before its guild is even read; one about the bot is handed to the
    player of its guild, or dropped when the guild has none. *)
Theorem update_handler_voice_state (data : dict string json)
    (d u : json) (user_id : Z) :
  sget data "t" = Some (JStr "VOICE_STATE_UPDATE") ->
  sget data "d" = Some d ->
  subscript d "user_id" = Ok u ->
  py_int env u = Ok user_id ->
  (user_id <> bot_user_id ->
   _update_handler env bot_user_id self data = Ok None) /\
  (user_id = bot_user_id ->
   forall g guild_id,
     subscript d "guild_id" = Ok g ->
     py_int env g = Ok guild_id ->
     _update_handler env bot_user_id self data
     = Ok (match get_player self guild_id with
           | Some player => Some (on_voice_state_update player d)
           | None => None
           end)).
Proof.
  intros Ht Hd Hu Hint. unfold _update_handler, int_field, get_player.
  destruct data as [|kv rest] eqn:Edata; [discriminate Ht|].
  cbv iota. rewrite <- Edata in *. clear Edata.
  rewrite (subscript_obj data "t" _ Ht). cbn [bind].
  change (eq_str (JStr "VOICE_STATE_UPDATE") "VOICE_SERVER_UPDATE")
    with false.
  change (eq_str (JStr "VOICE_STATE_UPDATE") "VOICE_STATE_UPDATE")
    with true. cbv iota.
  rewrite !(subscript_obj data "d" _ Hd). cbn [bind].
  rewrite Hu. cbn [bind]. rewrite Hint. cbn [bind]. split.
  - intro Hne. apply Z.eqb_neq in Hne. rewrite Hne. reflexivity.
  - intros -> g guild_id Hg Hgint. rewrite Z.eqb_refl. cbn [negb].
    cbv iota. rewrite Hg. cbn [bind]. rewrite Hgint. cbn [bind].
    destruct (zget (_players self) guild_id); reflexivity.
Qed.
End UpdateHandlerFacts.

Lemma update_handler_voice_server_witness :
  NodeMore._update_handler Sample.sample_env 7%Z
    (Sample.node_with "B" (Some true) [(10%Z, 100)])
    Sample2.voice_server_update
  = Ok (Some (NodeMore.on_voice_server_update 100
                (JObj [("guild_id", JNum 10); ("token", JStr "tok")]))).
Proof.
  exact (update_handler_voice_server Sample.sample_env 7%Z
           (Sample.node_with "B" (Some true) [(10%Z, 100)])
           Sample2.voice_server_update
           (JObj [("guild_id", JNum 10); ("token", JStr "tok")])
           (JNum 10) 10%Z eq_refl eq_refl eq_refl eq_refl).
Defined.

Lemma update_handler_voice_state_witness :
  NodeMore._update_handler Sample.sample_env 8%Z
    (Sample.node_with "B" (Some true) [(10%Z, 100)])
    Sample2.voice_state_update = Ok None /\
  NodeMore._update_handler Sample.sample_env 7%Z
    (Sample.node_with "B" (Some true) [(10%Z, 100)])
    Sample2.voice_state_update
  = Ok (Some (NodeMore.on_voice_state_update 100
                (JObj [("guild_id", JNum 10); ("user_id", JStr "7")]))).
Proof.
  split.
  - apply (proj1 (update_handler_voice_state Sample.sample_env 8%Z
                    (Sample.node_with "B" (Some true) [(10%Z, 100)])
                    Sample2.voice_state_update
                    (JObj [("guild_id", JNum 10); ("user_id", JStr "7")])
                    (JStr "7") 7%Z eq_refl eq_refl eq_refl eq_refl)).
    discriminate.
  - exact (proj2 (update_handler_voice_state Sample.sample_env 7%Z
                    (Sample.node_with "B" (Some true) [(10%Z, 100)])
                    Sample2.voice_state_update
                    (JObj [("guild_id", JNum 10); ("user_id", JStr "7")])
                    (JStr "7") 7%Z eq_refl eq_refl eq_refl eq_refl)
             eq_refl (JNum 10) 10%Z eq_refl eq_refl).
Defined.

(** ** More on the classification of queries *)

Section PatternFacts.
Import Regex.

Lemma https_needs_http (s : string) : lit "http" s = None -> https s = None.
Proof.
  unfold https. intros ->. reflexivity.
Qed.

(** A text that does not begin with http still does not once a colon and
    more text follow it. *)
Lemma lit_http_prefixed (st q : string) :
  lit "http" st = None -> lit "http" (st ++ String ":" q)%string = None.
Proof.
  intro H.
  destruct (lit "http" (st ++ String ":" q)%string) as [t|] eqn:E;
    [|reflexivity].
  exfalso.
  apply lit_cons in E. destruct E as (s1 & E1 & E).
  apply lit_cons in E. destruct E as (s2 & -> & E).
  apply lit_cons in E. destruct E as (s3 & -> & E).
  apply lit_cons in E. destruct E as (s4 & -> & _).
  destruct st as [|c1 [|c2 [|c3 [|c4 r]]]]; simpl in E1; inversion E1; subst.
  simpl in H. discriminate H.
Qed.

Lemma not_url_not_spotify (q : string) :
  URL_REGEX_search q = false -> SPOTIFY_URL_REGEX_match q = None.
Proof.
  intro H. destruct (SPOTIFY_URL_REGEX_match q) as [g|] eqn:E;
    [|reflexivity].
  apply spotify_is_url in E. congruence.
Qed.

Lemma not_url_not_discord (q : string) :
  URL_REGEX_search q = false -> DISCORD_MP3_URL_REGEX_match q = None.
Proof.
  intro H. destruct (DISCORD_MP3_URL_REGEX_match q) as [g|] eqn:E;
    [|reflexivity].
  apply discord_is_url in E. congruence.
Qed.

(** The two special patterns exclude each other and both lie inside the
    URL pattern, so a query belongs to one branch of [get_tracks] whatever
    the order of the tests. *)
Theorem patterns_are_disjoint (q : string) :
  (forall g, DISCORD_MP3_URL_REGEX_match q = Some g ->
             URL_REGEX_search q = true /\ SPOTIFY_URL_REGEX_match q = None) /\
  (forall g, SPOTIFY_URL_REGEX_match q = Some g ->
             URL_REGEX_search q = true /\
             DISCORD_MP3_URL_REGEX_match q = None).
Proof.
  split; intros g Hg.
  - split; [exact (discord_is_url q g Hg)|exact (discord_not_spotify q g Hg)].
  - split; [exact (spotify_is_url q g Hg)|].
    destruct (DISCORD_MP3_URL_REGEX_match q) as [g'|] eqn:E; [|reflexivity].
    apply discord_not_spotify in E. congruence.
Qed.

Lemma patterns_are_disjoint_witness :
  (URL_REGEX_search Sample.attachment_url = true /\
   SPOTIFY_URL_REGEX_match Sample.attachment_url = None) /\
  (URL_REGEX_search Sample.catalog_url = true /\
   DISCORD_MP3_URL_REGEX_match Sample.catalog_url = None).
Proof.
  split.
  - exact (proj1 (patterns_are_disjoint Sample.attachment_url)
             {| channel_id := "1"; message_id := "2"; file := "song.mp3" |}
             eq_refl).
  - exact (proj2 (patterns_are_disjoint Sample.catalog_url)
             ("track", "4uLU6hMCjMI75M1A2tKUQC") eq_refl).
Defined.

(** A URL anywhere in the text makes the text a URL for [get_tracks], so
    such a text is never given the search prefix. *)
Theorem embedded_url_is_not_prefixed (before s st : string) (local : bool) :
  URL_REGEX_search s = true ->
  URL_REGEX_search (before ++ s)%string = true /\
  Pool.effective_query (before ++ s)%string st local = (before ++ s)%string.
Proof.
  intro H.
  assert (Hs : URL_REGEX_search (before ++ s)%string = true).
  { induction before as [|ch t IH]; [exact H|].
    cbn [append].
    change (URL_REGEX_search (String ch (t ++ s)%string))
      with (URL_REGEX_at (String ch (t ++ s)%string)
            || URL_REGEX_search (t ++ s)%string).
    rewrite IH. apply orb_true_r. }
  split; [exact Hs|]. apply effective_query_url, Hs.
Qed.

Lemma embedded_url_is_not_prefixed_witness :
  Pool.effective_query "play https://youtu.be/dQw4w9WgXcQ" "ytsearch" false
  = "play https://youtu.be/dQw4w9WgXcQ".
Proof.
  exact (proj2 (embedded_url_is_not_prefixed "play "
                  "https://youtu.be/dQw4w9WgXcQ" "ytsearch" false eq_refl)).
Defined.

Lemma span_spec (cls : ascii -> bool) (s a r : string) :
  span cls s = (a, r) ->
  forallb cls (list_ascii_of_string a) = true /\ s = (a ++ r)%string.
Proof.
  revert a r. induction s as [|ch t IH]; simpl; intros a r H.
  - inversion H. split; reflexivity.
  - destruct (cls ch) eqn:E.
    + destruct (span cls t) as [a' r'] eqn:Et. inversion H; subst.
      destruct (IH a' r eq_refl) as [Hall ->].
      simpl. rewrite E, Hall. split; reflexivity.
    + inversion H. split; reflexivity.
Qed.

Lemma plus_spec (cls : ascii -> bool) (s a r : string) :
  plus cls s = Some (a, r) ->
  a <> EmptyString /\
  forallb cls (list_ascii_of_string a) = true /\ s = (a ++ r)%string.
Proof.
  unfold plus. destruct (span cls s) as [a' r'] eqn:E.
  destruct a' as [|ch t]; [discriminate|].
  intro H. inversion H; subst.
  split; [discriminate|]. apply (span_spec cls s _ _ E).
Qed.

(** The groups of a matched attachment URL: the two ids are non-empty
    runs of digits and the file is a non-empty run of letters, digits,
    underscores and dots, so a title never holds a slash, a question mark
    or a dash. *)
Theorem discord_groups_shape (q : string) (g : discord_groups) :
  DISCORD_MP3_URL_REGEX_match q = Some g ->
  (channel_id g <> EmptyString /\
   forallb is_digit (list_ascii_of_string (channel_id g)) = true) /\
  (message_id g <> EmptyString /\
   forallb is_digit (list_ascii_of_string (message_id g)) = true) /\
  (file g <> EmptyString /\
   forallb is_file_char (list_ascii_of_string (file g)) = true).
Proof.
  unfold DISCORD_MP3_URL_REGEX_match. intro H.
  cbv beta iota delta [obind] in H.
  repeat match type of H with
         | match ?x with Some _ => _ | None => None end = Some _ =>
             let E := fresh "E" in
             destruct x as [?|] eqn:E; [|discriminate H]
         | (let '(_, _) := ?p in _) = Some _ => destruct p
         end.
  inversion H; subst; simpl.
  repeat match goal with
         | E : plus _ _ = Some _ |- _ =>
             apply plus_spec in E; destruct E as (? & ? & _)
         end.
  auto.
Qed.

Lemma discord_groups_shape_witness :
  DISCORD_MP3_URL_REGEX_match
    "https://cdn.discordapp.com/attachments/1/2/my-song.mp3?ex=65"
  = Some {| channel_id := "1"; message_id := "2"; file := "my" |} /\
  forallb is_file_char (list_ascii_of_string "my") = true.
Proof.
  split; [reflexivity|].
  exact (proj2 (proj2 (proj2
           (discord_groups_shape
              "https://cdn.discordapp.com/attachments/1/2/my-song.mp3?ex=65"
              {| channel_id := "1"; message_id := "2"; file := "my" |}
              eq_refl)))).
Defined.
End PatternFacts.

(** ** More on track resolution *)

Section ResolutionFacts.
Import Regex Pool Spec.

Variable env : Env.
Variable search : SpotifyClient -> string -> result spotify_result.

Lemma generic_branch (self : Node) (query : string) (c : Ctx) (st : string)
    (local : bool) :
  SPOTIFY_URL_REGEX_match (effective_query query st local) = None ->
  DISCORD_MP3_URL_REGEX_match (effective_query query st local) = None ->
  get_tracks env search self query c st local
  = interpret_load env (generic_response env self query st local) c st.
Proof.
  intros Hs Hd. unfold get_tracks, generic_response.
  rewrite Hs, Hd. reflexivity.
Qed.

(** A search phrase (no URL in it, not flagged as local) is asked of the
    backend as [search_type:phrase] and the reply is read by its load
    type, as long as the text of the search type does not itself begin
    with http. *)
Theorem search_phrase_is_prefixed (self : Node) (query : string) (c : Ctx)
    (st : string) :
  URL_REGEX_search query = false ->
  lit "http" st = None ->
  get_tracks env search self query c st false
  = interpret_load env
      (loadtracks env self (st ++ ":" ++ query)%string) c st.
Proof.
  intros Hu Hst.
  assert (Heff : effective_query query st false = (st ++ ":" ++ query)%string).
  { unfold effective_query. rewrite Hu. reflexivity. }
  assert (Hh : https (st ++ ":" ++ query)%string = None).
  { apply https_needs_http. apply lit_http_prefixed, Hst. }
  rewrite generic_branch; unfold generic_response; rewrite Heff.
  - reflexivity.
  - unfold SPOTIFY_URL_REGEX_match. rewrite Hh. reflexivity.
  - unfold DISCORD_MP3_URL_REGEX_match. rewrite Hh. reflexivity.
Qed.

(** With [local] set, a text that holds no URL is asked of the backend
    as it stands, without the search prefix. *)
Theorem local_query_is_sent_as_is (self : Node) (query : string) (c : Ctx)
    (st : string) :
  URL_REGEX_search query = false ->
  get_tracks env search self query c st true
  = interpret_load env (loadtracks env self query) c st.
Proof.
  intro Hu.
  assert (Heff : effective_query query st true = query).
  { unfold effective_query. rewrite andb_false_r. reflexivity. }
  rewrite generic_branch; unfold generic_response; rewrite Heff.
  - reflexivity.
  - apply not_url_not_spotify, Hu.
  - apply not_url_not_discord, Hu.
Qed.

(** A load type the node does not know makes [get_tracks] return [None]:
    no track, no playlist, no error. *)
Theorem unknown_load_type_returns_None (self : Node) (query : string)
    (c : Ctx) (st : string) (local : bool) (lt : string) :
  SPOTIFY_URL_REGEX_match (effective_query query st local) = None ->
  DISCORD_MP3_URL_REGEX_match (effective_query query st local) = None ->
  sget (generic_response env self query st local) "loadType"
  = Some (JStr lt) ->
  lt <> EmptyString ->
  ~ In lt ["NO_MATCHES"; "LOAD_FAILED"; "PLAYLIST_LOADED"; "SEARCH_RESULT";
           "TRACK_LOADED"] ->
  get_tracks env search self query c st local = Ok RNone.
Proof.
  intros Hs Hd Hlt Hne Hnot.
  rewrite generic_branch by assumption.
  unfold interpret_load, get_or_null. rewrite Hlt.
  cbn [truthy eq_str].
  apply String.eqb_neq in Hne. rewrite Hne. cbn [negb].
  repeat match goal with
         | |- context [String.eqb lt ?s] =>
             let E := fresh "E" in
             destruct (String.eqb lt s) eqn:E;
             [apply String.eqb_eq in E; exfalso; apply Hnot; subst lt;
              simpl; tauto|]
         end.
  reflexivity.
Qed.

Lemma build_tracks_missing_key (c : Ctx) (st : string)
    (good rest : list json) (d : dict string json) :
  Forall entry_ok good ->
  sget d "track" = None \/ sget d "info" = None ->
  build_tracks c st (good ++ JObj d :: rest) = Raise KeyError.
Proof.
  intros Hgood Hbad. induction Hgood as [|e l He _ IH]; simpl.
  - destruct Hbad as [-> | Hi]; [reflexivity|].
    destruct (sget d "track"); simpl; rewrite ?Hi; reflexivity.
  - destruct He as (d' & tid & inf & -> & Ht & Hi).
    simpl. rewrite Ht, Hi. simpl. rewrite IH. reflexivity.
Qed.

(** One entry of a search result that lacks its [track] or its [info]
    spoils the whole answer: [KeyError], and no track of the entries
    before or after it is returned. *)
Theorem entry_without_key_raises (self : Node) (query : string) (c : Ctx)
    (st : string) (local : bool) (lt : string) (good rest : list json)
    (d : dict string json) :
  SPOTIFY_URL_REGEX_match (effective_query query st local) = None ->
  DISCORD_MP3_URL_REGEX_match (effective_query query st local) = None ->
  lt = "SEARCH_RESULT" \/ lt = "TRACK_LOADED" ->
  sget (generic_response env self query st local) "loadType"
  = Some (JStr lt) ->
  sget (generic_response env self query st local) "tracks"
  = Some (JArr (good ++ JObj d :: rest)) ->
  Forall entry_ok good ->
  sget d "track" = None \/ sget d "info" = None ->
  get_tracks env search self query c st local = Raise KeyError.
Proof.
  intros Hs Hd Hlt Hload Htracks Hgood Hbad.
  rewrite generic_branch by assumption.
  unfold interpret_load, get_or_null. rewrite Hload.
  destruct Hlt as [-> | ->]; simpl; rewrite Htracks; simpl;
    rewrite (build_tracks_missing_key c st good rest d Hgood Hbad);
    reflexivity.
Qed.

(** The catalog branch on a node that holds a client: an error of the
    catalog escapes as it is; a single track comes back as a one-element
    list; a collection comes back as a playlist with one track per catalog
    track.  All these tracks are flagged as Spotify tracks and carry no
    source name. *)
Theorem catalog_branch (self : Node) (client : SpotifyClient)
    (query : string) (c : Ctx) (st : string) (local : bool)
    (g : string * string) :
  SPOTIFY_URL_REGEX_match query = Some g ->
  _spotify_client self = Some client ->
  truthy_str (_spotify_client_id self)
  || truthy_str (_spotify_client_secret self) = true ->
  let run := get_tracks env search self query c st local in
  match search client query with
  | Raise e => run = Raise e
  | Ok (SpTrack t) =>
      exists tr,
        run = Ok (RTracks [tr]) /\ spotify tr = true /\
        title tr = Ok (sp_name t) /\ sourceName tr = Ok JNull
  | Ok (SpCollection name image u ts) =>
      exists p l,
        run = Ok (RPlaylist p) /\ tracks p = BuiltTracks l /\
        track_count p = Some (length ts) /\ pl_spotify p = true /\
        Forall (fun tr => spotify tr = true /\ sourceName tr = Ok JNull) l
  end.
Proof.
  intros Hm Hclient Hid run. unfold run, get_tracks.
  rewrite (effective_query_url query st local (spotify_is_url _ _ Hm)).
  rewrite Hm, Hclient.
  replace (negb (truthy_str (_spotify_client_id self))
           && negb (truthy_str (_spotify_client_secret self)))
    with false
    by (rewrite <- negb_orb, Hid; reflexivity).
  destruct (search client query) as [[t|name image u ts]|e]; simpl.
  - eexists. repeat split.
  - do 2 eexists. split; [reflexivity|]. split; [reflexivity|].
    split; [unfold track_count; simpl; rewrite length_map; reflexivity|].
    split; [reflexivity|].
    apply Forall_forall. intros tr Hin. apply in_map_iff in Hin.
    destruct Hin as (t & <- & _). split; reflexivity.
  - reflexivity.
Qed.
End ResolutionFacts.

Lemma search_phrase_is_prefixed_witness :
  Pool.get_tracks Sample.sample_env Sample.no_catalog
    (Sample.node_with "B" (Some true) []) "nothing" None "ytsearch"
    false
  = Raise (TrackLoadError "No matches found. [NO_MATCHES]").
Proof.
  rewrite (search_phrase_is_prefixed Sample.sample_env Sample.no_catalog
             (Sample.node_with "B" (Some true) []) "nothing" None "ytsearch"
             eq_refl eq_refl).
  reflexivity.
Defined.

Lemma local_query_is_sent_as_is_witness :
  Pool.get_tracks Sample.silent_env Sample.no_catalog
    (Sample.node_with "B" (Some true) []) "/srv/music/song.mp3" None
    "ytsearch" true
  = Raise (TrackLoadError "No matches found. [NO_MATCHES]").
Proof.
  rewrite (local_query_is_sent_as_is Sample.silent_env Sample.no_catalog
             (Sample.node_with "B" (Some true) []) "/srv/music/song.mp3"
             None "ytsearch" eq_refl).
  reflexivity.
Defined.

Lemma unknown_load_type_returns_None_witness :
  Pool.get_tracks Sample2.odd_env Sample.no_catalog
    (Sample.node_with "B" (Some true) []) "odd" None "ytsearch" false
  = Ok Pool.RNone.
Proof.
  apply (unknown_load_type_returns_None Sample2.odd_env Sample.no_catalog
           (Sample.node_with "B" (Some true) []) "odd" None "ytsearch" false
           "SHRUG" eq_refl eq_refl eq_refl).
  - discriminate.
  - simpl. intros [H|[H|[H|[H|[H|[]]]]]]; discriminate H.
Defined.

Lemma entry_without_key_raises_witness :
  Pool.get_tracks Sample2.odd_env Sample.no_catalog
    (Sample.node_with "B" (Some true) []) "song" None "ytsearch" false
  = Raise KeyError.
Proof.
  apply (entry_without_key_raises Sample2.odd_env Sample.no_catalog
           (Sample.node_with "B" (Some true) []) "song" None "ytsearch" false
           "SEARCH_RESULT" [Sample.sample_entry "t1"]
           [Sample.sample_entry "t3"] [("track", JStr "t2")]
           eq_refl eq_refl (or_introl eq_refl) eq_refl eq_refl
           (Forall_cons _ (sample_entry_ok "t1") (Forall_nil _))
           (or_intror eq_refl)).
Defined.

Lemma catalog_branch_witness :
  exists p,
    Pool.get_tracks Sample.sample_env Sample2.catalog Sample2.configured
      "https://open.spotify.com/album/6N9PS4QXF1D0OWPk0Sxtb4" None
      "ytsearch" false
    = Ok (Pool.RPlaylist p) /\
    Pool.track_count p = Some 2.
Proof.
  destruct (catalog_branch Sample.sample_env Sample2.catalog
              Sample2.configured
              {| Pool.client_id := "5f573c9620494bae87890c0f08a60293";
                 Pool.client_secret := "212476d9b0f3472eaa762d90b19b0ba8" |}
              "https://open.spotify.com/album/6N9PS4QXF1D0OWPk0Sxtb4" None
              "ytsearch" false ("album", "6N9PS4QXF1D0OWPk0Sxtb4")
              eq_refl eq_refl eq_refl)
    as (p & l & Hrun & _ & Hcount & _).
  exists p. split; [exact Hrun|exact Hcount].
Defined.

Lemma spotify_without_credentials_witness :
  Pool.get_tracks Sample.sample_env Sample2.catalog
    (Sample.node_with "B" (Some true) []) Sample.catalog_url None
    "ytsearch" false
  = Raise (InvalidSpotifyClientAuthorization Pool.credentials_error).
Proof.
  exact (spotify_without_credentials Sample.sample_env Sample2.catalog
           (Sample.node_with "B" (Some true) []) Sample.catalog_url None
           "ytsearch" false ("track", "4uLU6hMCjMI75M1A2tKUQC")
           eq_refl eq_refl eq_refl).
Defined.

Lemma attachment_single_track_witness :
  exists t,
    Pool.get_tracks Sample.sample_env Sample.no_catalog
      (Sample.node_with "B" (Some true) []) Sample.attachment_url None
      "ytsearch" false
    = Ok (Pool.RTracks [t]) /\
    Pool.title t = Ok (JStr "song.mp3") /\
    Pool.sourceName t = Ok (JStr "http").
Proof.
  destruct (attachment_single_track Sample.sample_env Sample.no_catalog
              (Sample.node_with "B" (Some true) []) Sample.attachment_url
              None "ytsearch" false
              {| Regex.channel_id := "1"; Regex.message_id := "2";
                 Regex.file := "song.mp3" |}
              [("track", JStr "t9"); ("info", JObj [("title", JStr "t9")])]
              [("title", JStr "t9")] (JStr "t9")
              eq_refl eq_refl eq_refl eq_refl)
    as (t & Hrun & Ht & Hs & _).
  exists t. repeat split; assumption.
Defined.

(** ** The artist of the catalog *)

Section ArtistFacts.
Import SpotifyArtist.

Context {T : Type} (py_str : json -> string) (Track : json -> result T).

Lemma build_all_length (l : list json) (ts : list T) :
  build_all Track l = Ok ts -> length ts = length l.
Proof.
  revert ts. induction l as [|x rest IH]; simpl; intros ts H.
  - inversion H. reflexivity.
  - destruct (Track x) as [t|e]; simpl in H; [|discriminate H].
    destruct (build_all Track rest) as [ts'|e]; simpl in H; [|discriminate H].
    inversion H. simpl. rewrite (IH ts' eq_refl). reflexivity.
Qed.

Lemma string_length_chars (s : string) :
  String.length s = length (list_ascii_of_string s).
Proof.
  induction s as [|ch t IH]; simpl; [reflexivity|]. rewrite IH. reflexivity.
Qed.

(** What [len] counts is what a loop visits. *)
Lemma py_len_iter (v : json) (elems : list json) :
  py_iter v = Ok elems -> py_len v = Ok (length elems).
Proof.
  destruct v as [| | |s|l|d]; simpl; intro H; inversion H; subst.
  - rewrite length_map, string_length_chars. reflexivity.
  - reflexivity.
  - rewrite length_map. reflexivity.
Qed.

Lemma truthy_length (v : json) (elems : list json) :
  py_iter v = Ok elems -> truthy v = negb (Nat.eqb (length elems) 0).
Proof.
  destruct v as [| | |s|l|d]; simpl; intro H; inversion H; subst.
  - destruct s; reflexivity.
  - destruct elems; reflexivity.
  - destruct d; reflexivity.
Qed.

(** Whenever an [Artist] is built, its [total_tracks] is the number of
    its tracks, an empty track list included. *)
Theorem Artist_total_tracks (data artist : dict string json)
    (a : Artist_obj T) :
  Artist py_str Track data artist = Ok a ->
  total_tracks a = length (tracks a).
Proof.
  unfold Artist. intro H.
  repeat match type of H with
         | bind ?m _ = Ok _ =>
             let E := fresh "E" in
             destruct m eqn:E; cbn [bind] in H; [|discriminate H]
         end.
  inversion H; subst a; simpl.
  match goal with
  | Ei : py_iter ?v = Ok ?elems, Eb : build_all _ ?elems = Ok _,
    Et : (if truthy ?v then _ else _) = Ok _ |- _ =>
      rewrite (build_all_length _ _ Eb);
      rewrite (truthy_length _ _ Ei), (py_len_iter _ _ Ei) in Et;
      cbn [bind] in Et;
      destruct (length elems); simpl in Et; inversion Et; reflexivity
  end.
Qed.

(** The image of an artist is the [url] of the last image listed; with
    no image, or none listed, it is [None] and nothing is raised for
    it. *)
Theorem Artist_image (data artist : dict string json) (a : Artist_obj T) :
  Artist py_str Track data artist = Ok a ->
  match get_or_null artist "images" with
  | JArr (first :: others) =>
      subscript (last others first) "url" = Ok (image a)
  | JArr [] | JNull => image a = JNull
  | _ => True
  end.
Proof.
  unfold Artist. intro H.
  repeat match type of H with
         | bind ?m _ = Ok _ =>
             let E := fresh "E" in
             destruct m eqn:E; cbn [bind] in H; [|discriminate H]
         end.
  inversion H; subst a; simpl.
  match goal with
  | Ei : (if truthy (get_or_null artist "images") then _ else _) = Ok _
    |- _ => revert Ei
  end.
  unfold get_or_null.
  destruct (sget artist "images") as [v|] eqn:Es.
  - rewrite (subscript_obj _ _ _ Es).
    destruct v as [| | | |[|first others]|]; simpl; intro Ei;
      first [exact I | exact Ei | inversion Ei; reflexivity].
  - simpl. intro Ei. inversion Ei. reflexivity.
Qed.
End ArtistFacts.

Lemma Artist_total_tracks_witness :
  exists a,
    SpotifyArtist.Artist Sample.sample_str Sample2.keep Sample2.artist_data
      Sample2.artist_info = Ok a /\
    SpotifyArtist.total_tracks a = 3 /\
    SpotifyArtist.name a = "Top Tracks by Rick Astley".
Proof.
  eexists. split; [reflexivity|]. split; [|reflexivity].
  exact (Artist_total_tracks Sample.sample_str Sample2.keep
           Sample2.artist_data Sample2.artist_info _ eq_refl).
Defined.

Lemma Artist_image_witness :
  exists a,
    SpotifyArtist.Artist Sample.sample_str Sample2.keep Sample2.artist_data
      Sample2.artist_info = Ok a /\
    Ok (JStr "small.jpg") = Ok (SpotifyArtist.image a).
Proof.
  eexists. split; [reflexivity|].
  exact (Artist_image Sample.sample_str Sample2.keep
           Sample2.artist_data Sample2.artist_info _ eq_refl).
Defined.
